(** * yara_rule_tester: a shallow embedding of [yara_rule_tester.py]

    The script replays stored records through per-proxy YARA rulesets and
    scores the detections against the origin address of each record.

    Conventions of the embedding:
    - Python [int] is [Z]; the counters start at 0 and are only incremented,
      but they are kept in [Z] so that non-negativity is a theorem.
    - A Python number is an [int] or a [float] ([num]).  A float is the
      rational it denotes; every float operation is the exact operation
      followed by a rounding [rnd], a parameter of the development.  The
      operations follow Python: [int] with [int] is exact, anything with a
      [float] is a float, [/] always gives a float and raises
      [ZeroDivisionError] on a zero divisor.  Nothing is assumed of [rnd]
      except where a theorem says so ([rounding]), so the results hold for
      exact arithmetic ([rnd] the identity) and for any monotone rounding
      to representable numbers alike.  Overflow is not modelled: the
      quotients the script computes are at most 100.
    - [print] appends a structured [line] to the trace; the formatting of an
      f-string into characters is not modelled, its arguments are kept.
    - [sys.exit(n)] and uncaught exceptions end the computation
      ([Exit], [Raise]); the trace produced so far is kept.
    - The YARA engine, [str.lower] and [str.upper] are parameters of the
      development (Section variables); calls to the engine are recorded in
      the trace. *)

From Stdlib Require Import ZArith QArith List String Ascii Bool Lia Lqa.
Import ListNotations.

Local Open Scope string_scope.
Local Open Scope list_scope.
Local Open Scope Z_scope.

(** ** Data model *)

(** One row of [SELECT rowid, id, headers, ip FROM ssl_logs].  A NULL
    [headers] column is [None]. *)
Record Row := mkRow {
  rowid : Z;
  id_text : string;
  headers_text : option string;
  ip_text : string
}.

(** [config['proxies'][k]['yara_ruleset']]: [should_be_true] is read with
    [[...]], [should_be_false] with [.get(..., [])]. *)
Record RulesetPaths := mkRulesetPaths {
  should_be_true : list string;
  should_be_false : option (list string)
}.

Record ProxyEntry := mkProxyEntry {
  ip : string;
  proxy : string;
  yara_ruleset : RulesetPaths
}.

(** The module-level globals [verbose], [list_flag], [specific_proxy]. *)
Record Globals := mkGlobals {
  verbose : bool;
  list_flag : option string;
  specific_proxy : option string
}.

(** What [sqlite3.connect]/[execute]/[fetchall] deliver: the rows, or an
    [sqlite3.Error]. *)
Inductive Store :=
| StoreRows (rows : list Row)
| StoreError (e : string).

(** A Python number: an [int], or a [float] given by the rational it
    denotes. *)
Inductive num :=
| NInt (z : Z)
| NFloat (q : Q).

Definition num_value (x : num) : Q :=
  match x with
  | NInt z => inject_Z z
  | NFloat q => q
  end.

(** The text printed, one constructor per [print] call of the script. *)
Inductive line :=
| LLoading (path : string)
| LYaraSyntaxError (e : string)
| LYaraError (e : string)
| LList (flag id headers proxy_detected : string)
| LParsingRuleset (proxy_name : string)
| LFailNotFromProxy (id proxy_name headers : string)
| LSuccess (id proxy_name headers : string)
| LFailFromProxy (id proxy_name headers : string)
| LTotal (total : Z)
| LConfusionMatrix
| LCell (name : string) (count : Z) (percent : num)
| LBlank
| LPrecision (x : num)
| LRecall (x : num)
| LF1 (x : num)
| LSQLiteError (e : string)
| LUsage
| LSettingVerbose.

(** Trace events: printed lines and calls into the YARA engine. *)
Inductive event :=
| Print (l : line)
| YaraCompile (filepath : string)
| YaraMatch (data : string).

Inductive exn :=
| ZeroDivisionError
| IndexError
| SQLiteError (e : string).

(** ** The effect monad: a trace and a result *)

Inductive res (A : Type) :=
| Done (a : A)
| Exit (code : Z)
| Raise (e : exn).
Arguments Done {A} a.
Arguments Exit {A} code.
Arguments Raise {A} e.

Definition M (A : Type) : Type := list event * res A.

Definition ret {A} (a : A) : M A := ([], Done a).

Definition bind {A B} (m : M A) (f : A -> M B) : M B :=
  match m with
  | (t, Done a) => let (t', r) := f a in (t ++ t', r)
  | (t, Exit c) => (t, Exit c)
  | (t, Raise e) => (t, Raise e)
  end.

Notation "x <- c1 ;; c2" := (bind c1 (fun x => c2))
  (at level 61, c1 at next level, right associativity).
Notation "c1 ;;; c2" := (bind c1 (fun _ => c2))
  (at level 61, right associativity).

Definition print (l : line) : M unit := ([Print l], Done tt).
Definition sys_exit {A} (code : Z) : M A := ([], Exit code).
Definition raise {A} (e : exn) : M A := ([], Raise e).

Definition trace_of {A} (m : M A) : list event := fst m.
Definition result_of {A} (m : M A) : res A := snd m.

(** [l[i]] for a list and a non-negative index. *)
Definition index {A} (l : list A) (i : nat) : M A :=
  match nth_error l i with
  | Some a => ret a
  | None => raise IndexError
  end.

(** Truthiness of a list. *)
Definition truthy_list {A} (l : list A) : bool :=
  match l with [] => false | _ :: _ => true end.

(** ** Counters of one pass *)

Record Counters := mkCounters {
  total : Z;
  total_from_proxy : Z;
  total_not_from_proxy : Z;
  fail : Z;
  fail_from_proxy : Z;
  fail_not_from_proxy : Z
}.

Definition counters0 : Counters := mkCounters 0 0 0 0 0 0.

(** The four cells as computed after the row loop. *)
Definition TP (c : Counters) : Z := total_from_proxy c - fail_from_proxy c.
Definition FP (c : Counters) : Z := fail_not_from_proxy c.
Definition TN (c : Counters) : Z := total_not_from_proxy c - fail_not_from_proxy c.
Definition FN (c : Counters) : Z := fail_from_proxy c.

(** ** Numbers, precision, recall, F1 *)

Definition Qpos (q : Q) : bool := negb (Qle_bool q 0).

(** What is assumed of the rounding where bounds are proved: it is
    monotone, it leaves a rounded number unchanged, and 0, 1 and 2 are
    representable. *)
Record rounding (rnd : Q -> Q) : Prop := mkRounding {
  rnd_mono : forall x y : Q, (x <= y)%Q -> (rnd x <= rnd y)%Q;
  rnd_idem : forall x : Q, (rnd (rnd x) == rnd x)%Q;
  rnd_0 : (rnd 0 == 0)%Q;
  rnd_1 : (rnd 1 == 1)%Q;
  rnd_2 : (rnd 2 == 2)%Q
}.

Section Arithmetic.

Variable rnd : Q -> Q.

(** [float(x)] *)
Definition to_float (x : num) : Q :=
  match x with
  | NInt z => rnd (inject_Z z)
  | NFloat q => q
  end.

(** [x + y] *)
Definition num_add (x y : num) : num :=
  match x, y with
  | NInt a, NInt b => NInt (a + b)
  | _, _ => NFloat (rnd (to_float x + to_float y))
  end.

(** [x * y] *)
Definition num_mul (x y : num) : num :=
  match x, y with
  | NInt a, NInt b => NInt (a * b)
  | _, _ => NFloat (rnd (to_float x * to_float y))
  end.

(** [x > 0] *)
Definition num_gt0 (x : num) : bool :=
  match x with
  | NInt z => 0 <? z
  | NFloat q => Qpos q
  end.

(** The float [x / y] for a non-zero [y]. *)
Definition quotient (x y : num) : num :=
  match x, y with
  | NInt a, NInt b => NFloat (rnd (inject_Z a / inject_Z b))
  | _, _ => NFloat (rnd (to_float x / to_float y))
  end.

(** [y == 0]: an [int] is converted to a float that is zero exactly when
    the [int] is. *)
Definition num_is_zero (y : num) : bool :=
  match y with
  | NInt b => b =? 0
  | NFloat q => Qeq_bool q 0
  end.

(** [x / y] *)
Definition truediv (x y : num) : M num :=
  if num_is_zero y then raise ZeroDivisionError else ret (quotient x y).

(** [TP / (TP + FP) if (TP + FP) > 0 else 0] *)
Definition precision_of (tp fp : Z) : M num :=
  if 0 <? tp + fp then truediv (NInt tp) (NInt (tp + fp)) else ret (NInt 0).

(** [TP / (TP + FN) if (TP + FN) > 0 else 0] *)
Definition recall_of (tp fn : Z) : M num :=
  if 0 <? tp + fn then truediv (NInt tp) (NInt (tp + fn)) else ret (NInt 0).

(** [2 * (precision * recall) / (precision + recall)
     if (precision + recall) > 0 else 0] *)
Definition f1_of (precision recall : num) : M num :=
  if num_gt0 (num_add precision recall)
  then truediv (num_mul (NInt 2) (num_mul precision recall))
               (num_add precision recall)
  else ret (NInt 0).

(** [f"... {100 * X/total:.2f}%"]: the value that is formatted. *)
Definition percent (x total : Z) : M num :=
  truediv (NInt (100 * x)) (NInt total).

(** Lines 108-129: the cells, the metrics and the summary output. *)
Definition report (c : Counters) : M unit :=
  let tp := TP c in
  let fp := FP c in
  let tn := TN c in
  let fn := FN c in
  precision <- precision_of tp fp ;;
  recall <- recall_of tp fn ;;
  f1_score <- f1_of precision recall ;;
  print (LTotal (total c)) ;;;
  print LConfusionMatrix ;;;
  (p <- percent tp (total c) ;; print (LCell "True Positive (TP)" tp p)) ;;;
  (p <- percent fp (total c) ;; print (LCell "False Positive (FP)" fp p)) ;;;
  (p <- percent tn (total c) ;; print (LCell "True Negative (TN)" tn p)) ;;;
  (p <- percent fn (total c) ;; print (LCell "False Negative (FN)" fn p)) ;;;
  print LBlank ;;;
  print (LPrecision precision) ;;;
  print (LRecall recall) ;;;
  print (LF1 f1_score) ;;;
  print LBlank.

(** The metrics, the percentages and the lines of [report] when no
    division fails. *)
Definition precision_q (tp fp : Z) : num :=
  if 0 <? tp + fp then quotient (NInt tp) (NInt (tp + fp)) else NInt 0.

Definition f1_q (p r : num) : num :=
  if num_gt0 (num_add p r)
  then quotient (num_mul (NInt 2) (num_mul p r)) (num_add p r)
  else NInt 0.

Definition percent_q (x n : Z) : num := quotient (NInt (100 * x)) (NInt n).

Definition report_lines (c : Counters) : list event :=
  let p := precision_q (TP c) (FP c) in
  let r := precision_q (TP c) (FN c) in
  [ Print (LTotal (total c)); Print LConfusionMatrix;
    Print (LCell "True Positive (TP)" (TP c) (percent_q (TP c) (total c)));
    Print (LCell "False Positive (FP)" (FP c) (percent_q (FP c) (total c)));
    Print (LCell "True Negative (TN)" (TN c) (percent_q (TN c) (total c)));
    Print (LCell "False Negative (FN)" (FN c) (percent_q (FN c) (total c)));
    Print LBlank; Print (LPrecision p); Print (LRecall r);
    Print (LF1 (f1_q p r)); Print LBlank ].

(** A number between 0 and 1 whose float is representable and has the
    same value. *)
Definition unit_num (x : num) : Prop :=
  (0 <= to_float x <= 1)%Q
  /\ (rnd (to_float x) == to_float x)%Q
  /\ (num_value x == to_float x)%Q.

End Arithmetic.

(** [s.split("=")] *)
Fixpoint split_eq (s : string) : list string :=
  match s with
  | EmptyString => [""]
  | String c rest =>
      if Ascii.eqb c "="%char then "" :: split_eq rest
      else match split_eq rest with
           | [] => [String c ""]
           | h :: t => String c h :: t
           end
  end.

(** [sqlite3.connect], [cursor.execute], [cursor.fetchall]. *)
Definition fetchall (store : Store) : M (list Row) :=
  match store with
  | StoreRows rows => ret rows
  | StoreError e => raise (SQLiteError e)
  end.

(** [except sqlite3.Error as e: print(...); sys.exit(1)] *)
Definition except_sqlite {A} (m : M A) : M A :=
  match m with
  | (t, Raise (SQLiteError e)) => (t ++ [Print (LSQLiteError e)], Exit 1)
  | _ => m
  end.

(** [x += 1] on each counter. *)
Definition inc_total (c : Counters) : Counters :=
  mkCounters (total c + 1) (total_from_proxy c) (total_not_from_proxy c)
             (fail c) (fail_from_proxy c) (fail_not_from_proxy c).
Definition inc_total_from_proxy (c : Counters) : Counters :=
  mkCounters (total c) (total_from_proxy c + 1) (total_not_from_proxy c)
             (fail c) (fail_from_proxy c) (fail_not_from_proxy c).
Definition inc_total_not_from_proxy (c : Counters) : Counters :=
  mkCounters (total c) (total_from_proxy c) (total_not_from_proxy c + 1)
             (fail c) (fail_from_proxy c) (fail_not_from_proxy c).
Definition inc_fail (c : Counters) : Counters :=
  mkCounters (total c) (total_from_proxy c) (total_not_from_proxy c)
             (fail c + 1) (fail_from_proxy c) (fail_not_from_proxy c).
Definition inc_fail_from_proxy (c : Counters) : Counters :=
  mkCounters (total c) (total_from_proxy c) (total_not_from_proxy c)
             (fail c) (fail_from_proxy c + 1) (fail_not_from_proxy c).
Definition inc_fail_not_from_proxy (c : Counters) : Counters :=
  mkCounters (total c) (total_from_proxy c) (total_not_from_proxy c)
             (fail c) (fail_from_proxy c) (fail_not_from_proxy c + 1).

Definition globals0 : Globals := mkGlobals false None None.

Section Engine.

(** The rounding of float operations. *)
Variable rnd : Q -> Q.

(** The YARA engine: compiled rules, their matches, and compilation of a
    rule file, which succeeds or raises [yara.SyntaxError] or another
    [yara.Error]. *)
Variable rule : Type.
Variable ymatch : Type.

Inductive compiled :=
| Compiled (r : rule)
| SyntaxErr (e : string)
| OtherErr (e : string).

Variable yara_compile : string -> compiled.
Variable rule_match : rule -> string -> list ymatch.

(** [str.lower] and [str.upper]. *)
Variable str_lower : string -> string.
Variable str_upper : string -> string.

(** *** load_yara_rules *)

Fixpoint load_loop (yara_rules_paths : list string) (rules : list rule)
  : M (list rule) :=
  match yara_rules_paths with
  | [] => ret rules
  | yara_rule_path :: rest =>
      print (LLoading yara_rule_path) ;;;
      ([YaraCompile yara_rule_path], Done tt) ;;;
      match yara_compile yara_rule_path with
      | Compiled r => load_loop rest (rules ++ [r])
      | SyntaxErr e => print (LYaraSyntaxError e) ;;; sys_exit 1
      | OtherErr e => print (LYaraError e) ;;; sys_exit 1
      end
  end.

Definition load_yara_rules (yara_rules_paths : list string) : M (list rule) :=
  load_loop yara_rules_paths [].

(** *** scan_text *)

Fixpoint scan_loop (rules : list rule) (text : string) (matches : list ymatch)
  : M (list ymatch) :=
  match rules with
  | [] => ret matches
  | r :: rest =>
      ([YaraMatch text], Done tt) ;;;
      scan_loop rest text (matches ++ rule_match r text)
  end.

Definition scan_text (rules : list rule) (text : string) : M (list ymatch) :=
  scan_loop rules text [].

(** *** print_list *)

Definition flag_eqb (lf : option string) (flag : string) : bool :=
  match lf with
  | Some f => String.eqb f flag
  | None => false
  end.

Definition print_list (g : Globals) (flag id_text headers_text proxy_detected : string)
  : M unit :=
  if flag_eqb (list_flag g) flag
  then print (LList flag id_text headers_text proxy_detected)
  else ret tt.

(** *** The detection test of one payload (lines 79-81)

    [matches_true and not matches_false], after the two scans. *)
Definition classify (rules_true rules_false : list rule) (headers : string)
  : M bool :=
  matches_true <- scan_text rules_true headers ;;
  matches_false <- scan_text rules_false headers ;;
  ret (truthy_list matches_true && negb (truthy_list matches_false)).

(** *** The row loop of scan_sqlite_database (lines 77-106) *)

Section Pass.

Variable g : Globals.
Variables ips proxies : list string.
Variable i : nat.
Variables rules_true rules_false : list rule.

Definition score_row (c : Counters) (row : Row) : M Counters :=
  c <- match headers_text row with
       | Some headers =>
         if negb (String.eqb headers "") then
           detected <- classify rules_true rules_false headers ;;
           if detected then
             ips_i <- index ips i ;;
             if negb (String.eqb (ip_text row) ips_i) then
               let c := inc_fail c in
               let c := inc_fail_not_from_proxy c in
               let c := inc_total_not_from_proxy c in
               (if verbose g then
                  proxies_i <- index proxies i ;;
                  print (LFailNotFromProxy (id_text row) proxies_i headers)
                else ret tt) ;;;
               proxies_i <- index proxies i ;;
               print_list g "FP" (id_text row) headers proxies_i ;;;
               ret c
             else
               let c := inc_total_from_proxy c in
               (if verbose g then
                  proxies_i <- index proxies i ;;
                  print (LSuccess (id_text row) proxies_i headers)
                else ret tt) ;;;
               proxies_i <- index proxies i ;;
               print_list g "TP" (id_text row) headers proxies_i ;;;
               ret c
           else
             ips_i <- index ips i ;;
             if String.eqb (ip_text row) ips_i then
               let c := inc_fail c in
               let c := inc_fail_from_proxy c in
               let c := inc_total_from_proxy c in
               (if verbose g then
                  proxies_i <- index proxies i ;;
                  print (LFailFromProxy (id_text row) proxies_i headers)
                else ret tt) ;;;
               proxies_i <- index proxies i ;;
               print_list g "FN" (id_text row) headers proxies_i ;;;
               ret c
             else
               let c := inc_total_not_from_proxy c in
               proxies_i <- index proxies i ;;
               print_list g "TN" (id_text row) headers proxies_i ;;;
               ret c
         else ret c
       | None => ret c
       end ;;
  ret (inc_total c).

Fixpoint row_loop (rows : list Row) (c : Counters) : M Counters :=
  match rows with
  | [] => ret c
  | row :: rest => c <- score_row c row ;; row_loop rest c
  end.

End Pass.

(** *** parse_config and scan_sqlite_database *)

(** [yaml.safe_load(file)['proxies']] of the file at a path, and the rows
    (or the error) of the database at a path. *)
Variable load_proxies : string -> list ProxyEntry.
Variable open_store : string -> Store.

Definition parse_config_step
    (acc : list string * list string * list RulesetPaths) (e : ProxyEntry)
  : list string * list string * list RulesetPaths :=
  let '(ips, proxies, rules) := acc in
  (ips ++ [ip e], proxies ++ [proxy e], rules ++ [yara_ruleset e]).

Definition parse_config (config_file : string)
  : list string * list string * list RulesetPaths :=
  fold_left parse_config_step (load_proxies config_file) ([], [], []).

(** [ruleset_paths.get('should_be_false', [])] *)
Definition get_should_be_false (r : RulesetPaths) : list string :=
  match should_be_false r with
  | Some l => l
  | None => []
  end.

(** [specific_proxy and proxies[i].lower() != specific_proxy.lower()] *)
Definition skip_proxy (g : Globals) (proxies : list string) (i : nat) : M bool :=
  match specific_proxy g with
  | Some sp =>
      if negb (String.eqb sp "") then
        proxies_i <- index proxies i ;;
        ret (negb (String.eqb (str_lower proxies_i) (str_lower sp)))
      else ret false
  | None => ret false
  end.

(** The [for i, ruleset_paths in enumerate(yara_rules_paths, start=0)] loop. *)
Fixpoint ruleset_loop (g : Globals) (ips proxies : list string) (rows : list Row)
    (i : nat) (yara_rules_paths : list RulesetPaths) : M unit :=
  match yara_rules_paths with
  | [] => ret tt
  | ruleset_paths :: rest =>
      skip <- skip_proxy g proxies i ;;
      if skip then ruleset_loop g ips proxies rows (S i) rest
      else
        proxies_i <- index proxies i ;;
        print (LParsingRuleset proxies_i) ;;;
        rules_true <- load_yara_rules (should_be_true ruleset_paths) ;;
        rules_false <- load_yara_rules (get_should_be_false ruleset_paths) ;;
        c <- row_loop g ips proxies i rules_true rules_false rows counters0 ;;
        report rnd c ;;;
        ruleset_loop g ips proxies rows (S i) rest
  end.

Definition scan_sqlite_database (g : Globals) (db_path config_file : string)
  : M unit :=
  let '(ips, proxies, yara_rules_paths) := parse_config config_file in
  except_sqlite
    (rows <- fetchall (open_store db_path) ;;
     ruleset_loop g ips proxies rows 0 yara_rules_paths).

(** *** The module body (lines 136-151) *)

Definition parse_arg (g : Globals) (arg : string) : M Globals :=
  if String.eqb arg "-v" then
    print LSettingVerbose ;;;
    ret (mkGlobals true (list_flag g) (specific_proxy g))
  else if String.prefix "flag=" arg then
    v <- index (split_eq arg) 1 ;;
    ret (mkGlobals (verbose g) (Some (str_upper v)) (specific_proxy g))
  else if String.prefix "proxy=" arg then
    v <- index (split_eq arg) 1 ;;
    ret (mkGlobals (verbose g) (list_flag g) (Some v))
  else ret g.

Fixpoint args_loop (args : list string) (g : Globals) : M Globals :=
  match args with
  | [] => ret g
  | arg :: rest => g <- parse_arg g arg ;; args_loop rest g
  end.

Definition main (argv : list string) : M unit :=
  if Z.of_nat (List.length argv) <? 3 then
    print LUsage ;;; sys_exit 1
  else
    sqlite_db_file <- index argv 1 ;;
    config_file <- index argv 2 ;;
    g <- args_loop (skipn 3 argv) globals0 ;;
    scan_sqlite_database g sqlite_db_file config_file.

End Engine.

Arguments Compiled {rule} r.
Arguments SyntaxErr {rule} e.
Arguments OtherErr {rule} e.
Arguments get_should_be_false r : simpl never.

(** ** A concrete engine, for evaluating the script on examples

    A rule file holds one literal; the compiled rule reports the literal when
    it occurs in the scanned text.  Paths ending in [.bad] fail with a syntax
    error, paths ending in [.err] with another error. *)
Module Demo.

Fixpoint contains (needle hay : string) : bool :=
  String.prefix needle hay ||
  match hay with
  | EmptyString => false
  | String _ rest => contains needle rest
  end.

Fixpoint ends_with (suffix s : string) : bool :=
  String.eqb suffix s ||
  match s with
  | EmptyString => false
  | String _ rest => ends_with suffix rest
  end.

Definition yara_compile (path : string) : compiled string :=
  if ends_with ".bad" path then SyntaxErr "syntax error"
  else if ends_with ".err" path then OtherErr "could not open file"
  else Compiled path.

Definition rule_match (r text : string) : list string :=
  if contains r text then [r] else [].

Definition lower_ascii (c : ascii) : ascii :=
  let n := nat_of_ascii c in
  if (65 <=? n)%nat && (n <=? 90)%nat then ascii_of_nat (n + 32) else c.

Definition upper_ascii (c : ascii) : ascii :=
  let n := nat_of_ascii c in
  if (97 <=? n)%nat && (n <=? 122)%nat then ascii_of_nat (n - 32) else c.

Fixpoint smap (f : ascii -> ascii) (s : string) : string :=
  match s with
  | EmptyString => EmptyString
  | String c rest => String (f c) (smap f rest)
  end.

Definition str_lower := smap lower_ascii.
Definition str_upper := smap upper_ascii.

Definition acme : ProxyEntry :=
  mkProxyEntry "1.2.3.4" "Acme" (mkRulesetPaths ["via-acme"] (Some ["direct"])).
Definition bolt : ProxyEntry :=
  mkProxyEntry "5.6.7.8" "Bolt" (mkRulesetPaths ["x-bolt"] None).
Definition broken : ProxyEntry :=
  mkProxyEntry "9.9.9.9" "Broken" (mkRulesetPaths ["rules.bad"] None).

Definition load_proxies (config_file : string) : list ProxyEntry :=
  if String.eqb config_file "two.yaml" then [acme; bolt]
  else if String.eqb config_file "broken.yaml" then [acme; broken; bolt]
  else [acme].

Definition sample_rows : list Row :=
  [ mkRow 1 "a" (Some "GET / via-acme") "1.2.3.4";
    mkRow 2 "b" (Some "GET / via-acme") "9.9.9.9";
    mkRow 3 "c" (Some "GET / via-acme direct") "1.2.3.4";
    mkRow 4 "d" None "1.2.3.4";
    mkRow 5 "e" (Some "GET / plain") "7.7.7.7" ].

Definition open_store (db_path : string) : Store :=
  if String.eqb db_path "one.db" then
    StoreRows [mkRow 1 "a" (Some "GET / via-acme") "1.2.3.4"]
  else if String.eqb db_path "fp.db" then
    StoreRows [mkRow 1 "a" (Some "GET / via-acme") "9.9.9.9"]
  else if String.eqb db_path "empty.db" then StoreRows []
  else if String.eqb db_path "missing.db" then StoreError "no such table: ssl_logs"
  else StoreRows sample_rows.

(** The rounding of the examples: reduction to lowest terms, which changes
    no value. *)
Definition rnd : Q -> Q := Qred.

Definition main : list string -> M unit :=
  main rnd string string yara_compile rule_match str_lower str_upper
       load_proxies open_store.

Definition scan_sqlite_database : Globals -> string -> string -> M unit :=
  scan_sqlite_database rnd string string yara_compile rule_match str_lower
                       load_proxies open_store.

Definition row_loop (g : Globals) (e : ProxyEntry) (rt rf : list string)
    (rows : list Row) : M Counters :=
  row_loop string string rule_match g [ip e] [proxy e] 0 rt rf rows counters0.

End Demo.

Arguments load_loop {rule} yara_compile yara_rules_paths rules.
Arguments load_yara_rules {rule} yara_compile yara_rules_paths.
Arguments scan_loop {rule ymatch} rule_match rules text matches.
Arguments scan_text {rule ymatch} rule_match rules text.
Arguments classify {rule ymatch} rule_match rules_true rules_false headers.
Arguments score_row {rule ymatch} rule_match g ips proxies i
  rules_true rules_false c row.
Arguments row_loop {rule ymatch} rule_match g ips proxies i
  rules_true rules_false rows c.
Arguments ruleset_loop rnd {rule ymatch} yara_compile rule_match str_lower
  g ips proxies rows i yara_rules_paths.
Arguments scan_sqlite_database rnd {rule ymatch} yara_compile rule_match
  str_lower load_proxies open_store g db_path config_file.
Arguments main rnd {rule ymatch} yara_compile rule_match str_lower str_upper
  load_proxies open_store argv.

(** ** Pure descriptions of one pass, used to state the properties *)

(** The four cells of the confusion matrix. *)
Inductive cell := CellTP | CellFP | CellTN | CellFN.

Definition cell_eqb (a b : cell) : bool :=
  match a, b with
  | CellTP, CellTP | CellFP, CellFP | CellTN, CellTN | CellFN, CellFN => true
  | _, _ => false
  end.

(** The table of the scorer: outcome against ground truth. *)
Definition cell_table (positive belongs : bool) : cell :=
  match positive, belongs with
  | true, true => CellTP
  | true, false => CellFP
  | false, true => CellFN
  | false, false => CellTN
  end.

Section Description.

Context {rule ymatch : Type}.
Variable rule_match : rule -> string -> list ymatch.

(** All matches of a list of compiled rules on a text. *)
Definition matches_of (rules : list rule) (text : string) : list ymatch :=
  flat_map (fun r => rule_match r text) rules.

(** A pattern set has at least one match on a payload. *)
Definition has_match (rules : list rule) (text : string) : Prop :=
  exists r, In r rules /\ rule_match r text <> [].

Definition positive (rules_true rules_false : list rule) (text : string) : bool :=
  truthy_list (matches_of rules_true text)
  && negb (truthy_list (matches_of rules_false text)).

(** The non-empty payload of a row, if it has one. *)
Definition payload (row : Row) : option string :=
  match headers_text row with
  | Some h => if String.eqb h "" then None else Some h
  | None => None
  end.

(** The cell a row falls into in the pass of the identity with address
    [truth]; none for a row without payload. *)
Definition cell_of (rules_true rules_false : list rule) (truth : string)
    (row : Row) : option cell :=
  match payload row with
  | Some h => Some (cell_table (positive rules_true rules_false h)
                               (String.eqb (ip_text row) truth))
  | None => None
  end.

Definition in_cell (rules_true rules_false : list rule) (truth : string)
    (k : cell) (row : Row) : bool :=
  match cell_of rules_true rules_false truth row with
  | Some k' => cell_eqb k k'
  | None => false
  end.

(** Number of rows of a list that fall into a cell. *)
Definition count_cell (rules_true rules_false : list rule) (truth : string)
    (k : cell) (rows : list Row) : Z :=
  Z.of_nat (List.length (filter (in_cell rules_true rules_false truth k) rows)).

Definition no_payload (row : Row) : bool :=
  match payload row with Some _ => false | None => true end.

Definition count_no_payload (rows : list Row) : Z :=
  Z.of_nat (List.length (filter no_payload rows)).

(** The counters after one more row. *)
Definition bump (k : option cell) (c : Counters) : Counters :=
  inc_total
    match k with
    | None => c
    | Some CellTP => inc_total_from_proxy c
    | Some CellFP =>
        inc_total_not_from_proxy (inc_fail_not_from_proxy (inc_fail c))
    | Some CellFN => inc_total_from_proxy (inc_fail_from_proxy (inc_fail c))
    | Some CellTN => inc_total_not_from_proxy c
    end.

Definition bump_row (rules_true rules_false : list rule) (truth : string)
    (c : Counters) (row : Row) : Counters :=
  bump (cell_of rules_true rules_false truth row) c.

(** The lines one row prints, depending on the globals. *)
Definition verbose_line (k : cell) (id name headers : string) : list event :=
  match k with
  | CellTP => [Print (LSuccess id name headers)]
  | CellFP => [Print (LFailNotFromProxy id name headers)]
  | CellFN => [Print (LFailFromProxy id name headers)]
  | CellTN => []
  end.

Definition cell_flag (k : cell) : string :=
  match k with
  | CellTP => "TP" | CellFP => "FP" | CellTN => "TN" | CellFN => "FN"
  end.

Definition list_line (g : Globals) (k : cell) (id name headers : string)
  : list event :=
  match list_flag g with
  | Some f =>
      if String.eqb f (cell_flag k)
      then [Print (LList (cell_flag k) id headers name)] else []
  | None => []
  end.

Definition scan_events (rules : list rule) (text : string) : list event :=
  map (fun _ => YaraMatch text) rules.

Definition row_events (g : Globals) (name truth : string)
    (rules_true rules_false : list rule) (row : Row) : list event :=
  match payload row with
  | Some h =>
      let k := cell_table (positive rules_true rules_false h)
                          (String.eqb (ip_text row) truth) in
      scan_events rules_true h ++ scan_events rules_false h
      ++ (if verbose g then verbose_line k (id_text row) name h else [])
      ++ list_line g k (id_text row) name h
  | None => []
  end.

End Description.

(** The value of a cell in the counters after the row loop. *)
Definition cell_value (k : cell) (c : Counters) : Z :=
  match k with
  | CellTP => TP c
  | CellFP => FP c
  | CellTN => TN c
  | CellFN => FN c
  end.

(** Lines that report on a single record: printed only under [-v] or
    [flag=]. *)
Definition record_line (e : event) : bool :=
  match e with
  | Print (LList _ _ _ _) | Print (LFailNotFromProxy _ _ _)
  | Print (LSuccess _ _ _) | Print (LFailFromProxy _ _ _) => true
  | _ => false
  end.

(** The trace without the per-record lines. *)
Definition summary (t : list event) : list event :=
  filter (fun e => negb (record_line e)) t.

(** Two computations that agree on the result and on the trace up to the
    per-record lines. *)
Definition same_summary {A} (m1 m2 : M A) : Prop :=
  summary (fst m1) = summary (fst m2) /\ snd m1 = snd m2.

(** A compile call that raised. *)
Definition failed {rule} (r : compiled rule) : bool :=
  match r with
  | Compiled _ => false
  | SyntaxErr _ | OtherErr _ => true
  end.

Section Identities.

Context {rule ymatch : Type}.
Variable rnd : Q -> Q.
Variable yara_compile : string -> compiled rule.
Variable rule_match : rule -> string -> list ymatch.
Variable str_lower : string -> string.

(** The proxy-name test of the ruleset loop: an identity is evaluated when
    no non-empty filter is set or its name equals the filter after
    lowercasing both. *)
Definition selected (g : Globals) (e : ProxyEntry) : bool :=
  match specific_proxy g with
  | Some sp =>
      if String.eqb sp "" then true
      else String.eqb (str_lower (proxy e)) (str_lower sp)
  | None => true
  end.

(** The pass of one evaluated identity, on its own entry. *)
Definition pass_body (g : Globals) (rows : list Row) (e : ProxyEntry) : M unit :=
  print (LParsingRuleset (proxy e)) ;;;
  rules_true <- load_yara_rules yara_compile (should_be_true (yara_ruleset e)) ;;
  rules_false <-
    load_yara_rules yara_compile (get_should_be_false (yara_ruleset e)) ;;
  c <- row_loop rule_match g [ip e] [proxy e] 0 rules_true rules_false
                rows counters0 ;;
  report rnd c.

Fixpoint entries_loop (g : Globals) (rows : list Row) (entries : list ProxyEntry)
  : M unit :=
  match entries with
  | [] => ret tt
  | e :: rest =>
      if selected g e
      then pass_body g rows e ;;; entries_loop g rows rest
      else entries_loop g rows rest
  end.

(** A trace in which every compile call succeeded. *)
Definition clean (t : list event) : Prop :=
  forall p, In (YaraCompile p) t -> failed (yara_compile p) = false.

(** The lines of a failed compile: the call and its diagnostic. *)
Definition diagnostic (p : string) : list event :=
  match yara_compile p with
  | Compiled _ => []
  | SyntaxErr e => [YaraCompile p; Print (LYaraSyntaxError e)]
  | OtherErr e => [YaraCompile p; Print (LYaraError e)]
  end.

(** A computation that either made only successful compile calls, or
    stopped with exit status 1 right after the diagnostic of its first
    failed one. *)
Definition stops_at_failure {A} (m : M A) : Prop :=
  clean (fst m)
  \/ exists t p, clean t /\ failed (yara_compile p) = true
                 /\ fst m = t ++ diagnostic p /\ snd m = Exit 1.

End Identities.

(** ** Descriptions used by the further properties *)

(** Number of events of a trace that pass a test. *)
Definition count_events (f : event -> bool) (t : list event) : Z :=
  Z.of_nat (List.length (filter f t)).

Definition match_call (e : event) : bool :=
  match e with
  | YaraMatch _ => true
  | _ => false
  end.

(** The lines printed under [-v] alone. *)
Definition verbose_event (e : event) : bool :=
  match e with
  | Print (LFailNotFromProxy _ _ _) | Print (LSuccess _ _ _)
  | Print (LFailFromProxy _ _ _) => true
  | _ => false
  end.

(** The lines printed by [print_list]. *)
Definition list_event (e : event) : bool :=
  match e with
  | Print (LList _ _ _ _) => true
  | _ => false
  end.

(** The totals printed by the reports of a trace, in order. *)
Definition totals (t : list event) : list Z :=
  flat_map (fun e => match e with Print (LTotal n) => [n] | _ => [] end) t.

(** The ruleset headers and the report totals of a trace, in the order
    they were printed: the name of an identity, or a total. *)
Definition report_marks (t : list event) : list (string + Z) :=
  flat_map (fun e => match e with
                     | Print (LParsingRuleset n) => [inl n]
                     | Print (LTotal k) => [inr k]
                     | _ => []
                     end) t.

(** The events of loading one rule file that compiles. *)
Definition loading (p : string) : list event :=
  [Print (LLoading p); YaraCompile p].

(** The text of a string before its first "=" (all of it when it has
    none). *)
Fixpoint first_piece (s : string) : string :=
  match s with
  | EmptyString => EmptyString
  | String c rest =>
      if Ascii.eqb c "="%char then EmptyString else String c (first_piece rest)
  end.

(** A row with a payload whose origin is the given address. *)
Definition from_address (truth : string) (row : Row) : bool :=
  match payload row with
  | Some _ => String.eqb (ip_text row) truth
  | None => false
  end.

(** A row with a payload whose origin is another address. *)
Definition from_elsewhere (truth : string) (row : Row) : bool :=
  match payload row with
  | Some _ => negb (String.eqb (ip_text row) truth)
  | None => false
  end.

(** The ways a run can end: normally, with exit status 1, or with a
    division by zero. *)
Definition ends_well {A} (m : M A) : Prop :=
  match snd m with
  | Done _ => True
  | Exit c => c = 1
  | Raise e => e = ZeroDivisionError
  end.

(** The ways a run over a store with rows can end. *)
Definition ends_without_error {A} (m : M A) : Prop :=
  match snd m with
  | Done _ => True
  | Exit c => c = 1
  | Raise _ => False
  end.

(** ** Laws of the effect monad *)

Lemma bind_ret_l {A B} (a : A) (f : A -> M B) : bind (ret a) f = f a.
Proof. unfold bind, ret. destruct (f a) as [t r]. reflexivity. Qed.

Lemma bind_done {A B} (t : list event) (a : A) (f : A -> M B) :
  bind (t, Done a) f = (t ++ fst (f a), snd (f a)).
Proof. unfold bind. destruct (f a) as [t' r]. reflexivity. Qed.

Lemma bind_assoc {A B C} (m : M A) (f : A -> M B) (h : B -> M C) :
  bind (bind m f) h = bind m (fun a => bind (f a) h).
Proof.
  destruct m as [t [a | c | e]]; try reflexivity.
  unfold bind at 2 3. destruct (f a) as [t1 [b | c | e]]; cbn.
  - destruct (h b) as [t2 r]. now rewrite app_assoc.
  - reflexivity.
  - reflexivity.
Qed.

Lemma bind_ext {A B} (m : M A) (f h : A -> M B) :
  (forall a, f a = h a) -> bind m f = bind m h.
Proof.
  intro E. destruct m as [t [a | c | e]]; try reflexivity.
  unfold bind. now rewrite E.
Qed.

Lemma index_some {A} (l : list A) (i : nat) (a : A) :
  nth_error l i = Some a -> index l i = ret a.
Proof. unfold index. now intros ->. Qed.

(** ** scan_text *)

Section ScanFacts.

Context {rule ymatch : Type}.
Variable rule_match : rule -> string -> list ymatch.

Lemma scan_loop_eq (rules : list rule) (text : string) (acc : list ymatch) :
  scan_loop rule_match rules text acc
  = (scan_events rules text, Done (acc ++ matches_of rule_match rules text)).
Proof.
  revert acc. induction rules as [| r rules IH]; intro acc; cbn.
  - unfold ret. now rewrite app_nil_r.
  - rewrite IH. now rewrite <- app_assoc.
Qed.

Lemma scan_text_eq (rules : list rule) (text : string) :
  scan_text rule_match rules text
  = (scan_events rules text, Done (matches_of rule_match rules text)).
Proof. unfold scan_text. now rewrite scan_loop_eq. Qed.

Lemma truthy_matches (rules : list rule) (text : string) :
  truthy_list (matches_of rule_match rules text) = true
  <-> has_match rule_match rules text.
Proof.
  unfold has_match, matches_of. induction rules as [| r rules IH]; cbn.
  - split; [discriminate | intros (r & [] & _)].
  - destruct (rule_match r text) as [| m ms] eqn:E; cbn.
    + rewrite IH. split.
      * intros (r' & Hin & Hne). exists r'. auto.
      * intros (r' & [<- | Hin] & Hne); [congruence | eauto].
    + split; [intros _ | reflexivity].
      exists r. split; [now left | congruence].
Qed.

Lemma classify_eq (rules_true rules_false : list rule) (headers : string) :
  classify rule_match rules_true rules_false headers
  = (scan_events rules_true headers ++ scan_events rules_false headers,
     Done (positive rule_match rules_true rules_false headers)).
Proof.
  unfold classify. rewrite !scan_text_eq. cbn. now rewrite app_nil_r.
Qed.

End ScanFacts.

(** ** One pass over the rows *)

Section PassFacts.

Context {rule ymatch : Type}.
Variable rule_match : rule -> string -> list ymatch.
Variable g : Globals.
Variables ips proxies : list string.
Variable i : nat.
Variables truth name : string.
Hypothesis ips_i : nth_error ips i = Some truth.
Hypothesis proxies_i : nth_error proxies i = Some name.
Variables rules_true rules_false : list rule.

Lemma print_list_eq (k : cell) (id headers : string) :
  print_list g (cell_flag k) id headers name
  = (list_line g k id name headers, Done tt).
Proof.
  unfold print_list, list_line, flag_eqb.
  destruct (list_flag g) as [f |]; [| reflexivity].
  now destruct (String.eqb f (cell_flag k)).
Qed.

Lemma score_row_eq (c : Counters) (row : Row) :
  score_row rule_match g ips proxies i rules_true rules_false c row
  = (row_events rule_match g name truth rules_true rules_false row,
     Done (bump (cell_of rule_match rules_true rules_false truth row) c)).
Proof.
  unfold score_row, row_events, cell_of, payload.
  destruct (headers_text row) as [h |]; [| reflexivity].
  destruct (String.eqb h ""); [reflexivity |]. cbn [negb].
  rewrite classify_eq, (index_some _ _ _ ips_i), (index_some _ _ _ proxies_i).
  pose proof (print_list_eq CellTP (id_text row) h) as PTP.
  pose proof (print_list_eq CellFP (id_text row) h) as PFP.
  pose proof (print_list_eq CellTN (id_text row) h) as PTN.
  pose proof (print_list_eq CellFN (id_text row) h) as PFN.
  cbn [cell_flag] in PTP, PFP, PTN, PFN.
  rewrite (bind_done _ (positive rule_match rules_true rules_false h)).
  destruct (positive rule_match rules_true rules_false h);
    rewrite bind_ret_l;
    destruct (String.eqb (ip_text row) truth);
    destruct (verbose g);
    cbn [negb cell_table];
    rewrite ?bind_ret_l, ?PTP, ?PFP, ?PTN, ?PFN;
    cbn; rewrite ?app_nil_r, <- ?app_assoc; reflexivity.
Qed.

Lemma row_loop_eq (rows : list Row) (c : Counters) :
  row_loop rule_match g ips proxies i rules_true rules_false rows c
  = (flat_map (row_events rule_match g name truth rules_true rules_false) rows,
     Done (fold_left (bump_row rule_match rules_true rules_false truth)
                     rows c)).
Proof.
  revert c. induction rows as [| row rows IH]; intro c; [reflexivity |].
  cbn [row_loop flat_map fold_left].
  rewrite score_row_eq, bind_done, IH. reflexivity.
Qed.

End PassFacts.

(** ** Counting the cells *)

Lemma length_filter_cons {A} (f : A -> bool) (x : A) (l : list A) :
  Z.of_nat (List.length (filter f (x :: l)))
  = (if f x then 1 else 0) + Z.of_nat (List.length (filter f l)).
Proof. cbn [filter]. destruct (f x); cbn [List.length]; lia. Qed.

Section CountFacts.

Context {rule ymatch : Type}.
Variable rule_match : rule -> string -> list ymatch.
Variables rules_true rules_false : list rule.
Variable truth : string.

Lemma bump_total (k : option cell) (c : Counters) :
  total (bump k c) = total c + 1.
Proof. now destruct k as [[] |]. Qed.

Lemma bump_cell (k : option cell) (k0 : cell) (c : Counters) :
  cell_value k0 (bump k c)
  = cell_value k0 c
    + match k with
      | Some k' => if cell_eqb k0 k' then 1 else 0
      | None => 0
      end.
Proof.
  destruct k as [[] |], k0; unfold cell_value, TP, FP, TN, FN; cbn; lia.
Qed.

Lemma fold_total (rows : list Row) (c : Counters) :
  total (fold_left (bump_row rule_match rules_true rules_false truth) rows c)
  = total c + Z.of_nat (List.length rows).
Proof.
  revert c. induction rows as [| row rows IH]; intro c.
  - cbn. lia.
  - cbn [fold_left List.length]. rewrite IH. unfold bump_row.
    rewrite bump_total. lia.
Qed.

Lemma fold_cell (k0 : cell) (rows : list Row) (c : Counters) :
  cell_value k0 (fold_left (bump_row rule_match rules_true rules_false truth) rows c)
  = cell_value k0 c
    + count_cell rule_match rules_true rules_false truth k0 rows.
Proof.
  revert c. induction rows as [| row rows IH]; intro c.
  - unfold count_cell. cbn. lia.
  - cbn [fold_left]. rewrite IH. unfold bump_row. rewrite bump_cell.
    unfold count_cell. cbn [filter]. unfold in_cell at 2.
    destruct (cell_of rule_match rules_true rules_false truth row) as [k' |].
    + destruct (cell_eqb k0 k'); cbn [List.length]; lia.
    + lia.
Qed.

Lemma row_classes (row : Row) :
  (if in_cell rule_match rules_true rules_false truth CellTP row then 1 else 0)
  + (if in_cell rule_match rules_true rules_false truth CellFP row then 1 else 0)
  + (if in_cell rule_match rules_true rules_false truth CellTN row then 1 else 0)
  + (if in_cell rule_match rules_true rules_false truth CellFN row then 1 else 0)
  + (if no_payload row then 1 else 0) = 1.
Proof.
  unfold in_cell, no_payload, cell_of.
  destruct (payload row) as [h |]; [| reflexivity].
  now destruct (cell_table _ _).
Qed.

(** Every row is in exactly one of five classes: the four cells and the
    rows without payload. *)
Lemma classes_partition (rows : list Row) :
  count_cell rule_match rules_true rules_false truth CellTP rows
  + count_cell rule_match rules_true rules_false truth CellFP rows
  + count_cell rule_match rules_true rules_false truth CellTN rows
  + count_cell rule_match rules_true rules_false truth CellFN rows
  + count_no_payload rows
  = Z.of_nat (List.length rows).
Proof.
  unfold count_cell, count_no_payload.
  induction rows as [| row rows IH]; [reflexivity |].
  rewrite !length_filter_cons. pose proof (row_classes row).
  cbn [List.length]. lia.
Qed.

Lemma count_cell_nonneg (k : cell) (rows : list Row) :
  0 <= count_cell rule_match rules_true rules_false truth k rows.
Proof. unfold count_cell. lia. Qed.

End CountFacts.

(** ** Precision, recall and F1 *)

Lemma Qpos_true (q : Q) : Qpos q = true <-> (0 < q)%Q.
Proof.
  unfold Qpos. rewrite negb_true_iff. split.
  - intro E. apply Qnot_le_lt. intro Hle. apply Qle_bool_iff in Hle. congruence.
  - intro Hlt. destruct (Qle_bool q 0) eqn:E; [| reflexivity].
    apply Qle_bool_iff in E. exfalso. exact (Qlt_not_le _ _ Hlt E).
Qed.

Lemma Qpos_nonzero (q : Q) : Qpos q = true -> Qeq_bool q 0 = false.
Proof.
  intro Hq. apply Qpos_true in Hq.
  destruct (Qeq_bool q 0) eqn:E; [| reflexivity].
  apply Qeq_bool_eq in E. rewrite E in Hq. now apply Qlt_irrefl in Hq.
Qed.

Section ArithmeticFacts.

Variable rnd : Q -> Q.

Lemma truediv_int (a b : Z) :
  b <> 0 -> truediv rnd (NInt a) (NInt b) = ret (quotient rnd (NInt a) (NInt b)).
Proof.
  intro Hb. unfold truediv. cbn [num_is_zero].
  apply Z.eqb_neq in Hb. now rewrite Hb.
Qed.

Lemma truediv_gt0 (x y : num) :
  num_gt0 y = true -> truediv rnd x y = ret (quotient rnd x y).
Proof.
  intro Hy. unfold truediv.
  destruct y as [b | q]; cbn [num_gt0 num_is_zero] in *.
  - apply Z.ltb_lt in Hy.
    destruct (b =? 0) eqn:E; [apply Z.eqb_eq in E; lia | reflexivity].
  - now rewrite (Qpos_nonzero _ Hy).
Qed.

Lemma truediv_int_zero (a : Z) :
  truediv rnd (NInt a) (NInt 0) = raise ZeroDivisionError.
Proof. reflexivity. Qed.

Lemma precision_of_eq (tp fp : Z) :
  precision_of rnd tp fp = ret (precision_q rnd tp fp).
Proof.
  unfold precision_of, precision_q. destruct (0 <? tp + fp) eqn:E; [| reflexivity].
  apply truediv_int. apply Z.ltb_lt in E. lia.
Qed.

Lemma recall_of_eq (tp fn : Z) :
  recall_of rnd tp fn = ret (precision_q rnd tp fn).
Proof. exact (precision_of_eq tp fn). Qed.

Lemma f1_of_eq (p r : num) : f1_of rnd p r = ret (f1_q rnd p r).
Proof.
  unfold f1_of, f1_q.
  destruct (num_gt0 (num_add rnd p r)) eqn:E; [| reflexivity].
  now apply truediv_gt0.
Qed.

Lemma percent_ok (x n : Z) : n <> 0 -> percent rnd x n = ret (percent_q rnd x n).
Proof. intro Hn. now apply truediv_int. Qed.

(** *** The summary report *)

Lemma report_ok (c : Counters) :
  total c <> 0 -> report rnd c = (report_lines rnd c, Done tt).
Proof.
  intro Hn. unfold report.
  rewrite precision_of_eq, recall_of_eq, !bind_ret_l, f1_of_eq, bind_ret_l.
  rewrite !(percent_ok _ _ Hn), !bind_ret_l. reflexivity.
Qed.

Lemma report_zero (c : Counters) :
  total c = 0 ->
  report rnd c
  = ([Print (LTotal 0); Print LConfusionMatrix], Raise ZeroDivisionError).
Proof.
  intro Hn. unfold report.
  rewrite precision_of_eq, recall_of_eq, !bind_ret_l, f1_of_eq, bind_ret_l.
  rewrite Hn. unfold percent at 1. rewrite truediv_int_zero. reflexivity.
Qed.

(** *** Bounds, for a rounding *)

Hypothesis R : rounding rnd.

Lemma rnd_proper (x y : Q) : (x == y)%Q -> (rnd x == rnd y)%Q.
Proof.
  intro E. apply Qle_antisym; apply (rnd_mono rnd R); rewrite E; apply Qle_refl.
Qed.

Lemma rnd_unit (x : Q) : (0 <= x <= 1)%Q -> (0 <= rnd x <= 1)%Q.
Proof.
  intros [H0 H1]. split.
  - rewrite <- (rnd_0 rnd R). now apply (rnd_mono rnd R).
  - rewrite <- (rnd_1 rnd R). now apply (rnd_mono rnd R).
Qed.

Lemma ratio_unit (n d : Q) : (0 <= n <= d)%Q -> (0 < d)%Q -> (0 <= n / d <= 1)%Q.
Proof.
  intros [Hn Hnd] Hd. split.
  - apply Qle_shift_div_l; [exact Hd |]. now rewrite Qmult_0_l.
  - apply Qle_shift_div_r; [exact Hd |]. now rewrite Qmult_1_l.
Qed.

Lemma unit_num_zero : unit_num rnd (NInt 0).
Proof.
  unfold unit_num. cbn [to_float num_value]. change (inject_Z 0) with 0%Q.
  pose proof (rnd_0 rnd R) as H0.
  split; [rewrite H0; split; [apply Qle_refl | discriminate] |].
  split; [now apply rnd_proper | now symmetry].
Qed.

Lemma unit_num_rounded (x : Q) : (0 <= x <= 1)%Q -> unit_num rnd (NFloat (rnd x)).
Proof.
  intro Hx. unfold unit_num. cbn [to_float num_value].
  split; [now apply rnd_unit |].
  split; [apply (rnd_idem rnd R) | reflexivity].
Qed.

Lemma precision_q_unit (tp fp : Z) :
  0 <= tp -> 0 <= fp -> unit_num rnd (precision_q rnd tp fp).
Proof.
  intros Htp Hfp. unfold precision_q.
  destruct (0 <? tp + fp) eqn:E; [| apply unit_num_zero].
  apply Z.ltb_lt in E. cbn [quotient]. apply unit_num_rounded.
  apply ratio_unit.
  - split; [change 0%Q with (inject_Z 0) |]; rewrite <- Zle_Qle; lia.
  - change 0%Q with (inject_Z 0). rewrite <- Zlt_Qlt. lia.
Qed.

Lemma f1_float (P R' : Q) :
  (0 <= P <= 1)%Q -> (rnd P == P)%Q ->
  (0 <= R' <= 1)%Q -> (rnd R' == R')%Q ->
  (0 < rnd (P + R'))%Q ->
  unit_num rnd
    (NFloat (rnd (rnd (rnd (inject_Z 2) * rnd (P * R')) / rnd (P + R')))).
Proof.
  intros [HP0 HP1] HPi [HR0 HR1] HRi Hd.
  change (inject_Z 2) with 2%Q.
  assert (Hm0 : (0 <= rnd (P * R'))%Q).
  { rewrite <- (rnd_0 rnd R). apply (rnd_mono rnd R). nra. }
  assert (HmP : (rnd (P * R') <= P)%Q).
  { rewrite <- HPi at 2. apply (rnd_mono rnd R). nra. }
  assert (HmR : (rnd (P * R') <= R')%Q).
  { rewrite <- HRi at 2. apply (rnd_mono rnd R). nra. }
  pose proof (rnd_2 rnd R) as H2.
  apply unit_num_rounded. apply ratio_unit; [split | exact Hd].
  - rewrite <- (rnd_0 rnd R). apply (rnd_mono rnd R). rewrite H2. lra.
  - apply (rnd_mono rnd R). rewrite H2. lra.
Qed.

Lemma f1_q_unit (p r : num) :
  unit_num rnd p -> unit_num rnd r -> unit_num rnd (f1_q rnd p r).
Proof.
  intros (Hp & Hpi & Hpv) (Hr & Hri & Hrv). unfold f1_q.
  destruct (num_gt0 (num_add rnd p r)) eqn:E; [| apply unit_num_zero].
  assert (Hmul : forall P Q' : Q,
             (0 <= P <= 1)%Q -> (0 <= Q' <= 1)%Q ->
             (0 <= 2 * (P * Q') <= P + Q')%Q).
  { intros P Q' [HP0 HP1] [HQ0 HQ1]. split; nra. }
  destruct p as [a | p], r as [b | r]; cbn [num_add num_mul quotient] in *.
  - (* both integers *)
    cbn [num_gt0] in E. apply Z.ltb_lt in E.
    apply unit_num_rounded. cbn [to_float num_value] in *.
    rewrite <- Hpv in Hp. rewrite <- Hrv in Hr.
    apply ratio_unit.
    + rewrite !inject_Z_mult, inject_Z_plus. now apply Hmul.
    + change 0%Q with (inject_Z 0). now rewrite <- Zlt_Qlt.
  - cbn [num_gt0 to_float] in *. apply Qpos_true in E. now apply f1_float.
  - cbn [num_gt0 to_float] in *. apply Qpos_true in E. now apply f1_float.
  - cbn [num_gt0 to_float] in *. apply Qpos_true in E. now apply f1_float.
Qed.

End ArithmeticFacts.

(** ** parse_config and the ruleset loop *)

Section LoopFacts.

Context {rule ymatch : Type}.
Variable rnd : Q -> Q.
Variable yara_compile : string -> compiled rule.
Variable rule_match : rule -> string -> list ymatch.
Variable str_lower : string -> string.

Lemma parse_config_fold (es : list ProxyEntry)
    (a b : list string) (c : list RulesetPaths) :
  fold_left parse_config_step es (a, b, c)
  = (a ++ map ip es, b ++ map proxy es, c ++ map yara_ruleset es).
Proof.
  revert a b c. induction es as [| e es IH]; intros a b c; cbn.
  - now rewrite !app_nil_r.
  - rewrite IH, <- !app_assoc. reflexivity.
Qed.

Lemma parse_config_eq (load_proxies : string -> list ProxyEntry) (f : string) :
  parse_config load_proxies f
  = (map ip (load_proxies f), map proxy (load_proxies f),
     map yara_ruleset (load_proxies f)).
Proof. unfold parse_config. now rewrite parse_config_fold. Qed.

Lemma nth_error_middle {A B} (f : A -> B) (pre : list A) (e : A) (post : list A) :
  nth_error (map f (pre ++ e :: post)) (List.length pre) = Some (f e).
Proof.
  rewrite map_app, nth_error_app2; rewrite length_map; [| lia].
  now rewrite Nat.sub_diag.
Qed.

Lemma skip_proxy_eq (g : Globals) (proxies : list string) (i : nat)
    (e : ProxyEntry) :
  nth_error proxies i = Some (proxy e) ->
  skip_proxy str_lower g proxies i = ret (negb (selected str_lower g e)).
Proof.
  intro Hi. unfold skip_proxy, selected.
  destruct (specific_proxy g) as [sp |]; [| reflexivity].
  destruct (String.eqb sp ""); [reflexivity |]. cbn [negb].
  now rewrite (index_some _ _ _ Hi), bind_ret_l.
Qed.

Lemma row_loop_any_index (g : Globals) (ips proxies : list string) (i : nat)
    (e : ProxyEntry) (rt rf : list rule) (rows : list Row) (c : Counters) :
  nth_error ips i = Some (ip e) ->
  nth_error proxies i = Some (proxy e) ->
  row_loop rule_match g ips proxies i rt rf rows c
  = row_loop rule_match g [ip e] [proxy e] 0 rt rf rows c.
Proof.
  intros Hip Hname.
  rewrite (row_loop_eq rule_match g ips proxies i (ip e) (proxy e) Hip Hname).
  now rewrite (row_loop_eq rule_match g [ip e] [proxy e] 0 (ip e) (proxy e)).
Qed.

Lemma ruleset_loop_entries (g : Globals) (rows : list Row)
    (pre post : list ProxyEntry) :
  ruleset_loop rnd yara_compile rule_match str_lower g
               (map ip (pre ++ post)) (map proxy (pre ++ post)) rows
               (List.length pre) (map yara_ruleset post)
  = entries_loop rnd yara_compile rule_match str_lower g rows post.
Proof.
  revert pre. induction post as [| e post IH]; intro pre; [reflexivity |].
  cbn [map ruleset_loop entries_loop].
  pose proof (nth_error_middle ip pre e post) as Hip.
  pose proof (nth_error_middle proxy pre e post) as Hname.
  rewrite (skip_proxy_eq g _ _ e Hname), bind_ret_l.
  specialize (IH (pre ++ [e])).
  rewrite <- app_assoc, length_app in IH. cbn [app List.length] in IH.
  rewrite Nat.add_1_r in IH. rewrite IH.
  destruct (selected str_lower g e); cbn [negb]; [| reflexivity].
  unfold pass_body. rewrite (index_some _ _ _ Hname), bind_ret_l.
  rewrite bind_assoc. apply bind_ext; intros _.
  rewrite bind_assoc. apply bind_ext; intro rt.
  rewrite bind_assoc. apply bind_ext; intro rf.
  rewrite bind_assoc.
  now rewrite (row_loop_any_index g _ _ _ e rt rf rows counters0 Hip Hname).
Qed.

End LoopFacts.

Section RunFacts.

Context {rule ymatch : Type}.
Variable rnd : Q -> Q.
Variable yara_compile : string -> compiled rule.
Variable rule_match : rule -> string -> list ymatch.
Variable str_lower : string -> string.

Lemma scan_entries (load_proxies : string -> list ProxyEntry)
    (open_store : string -> Store) (g : Globals) (db_path config_file : string) :
  scan_sqlite_database rnd yara_compile rule_match str_lower load_proxies open_store
                       g db_path config_file
  = except_sqlite
      (rows <- fetchall (open_store db_path) ;;
       entries_loop rnd yara_compile rule_match str_lower g rows
                    (load_proxies config_file)).
Proof.
  unfold scan_sqlite_database. rewrite parse_config_eq.
  f_equal. apply bind_ext; intro rows.
  apply (ruleset_loop_entries rnd yara_compile rule_match str_lower g rows []).
Qed.

Lemma row_events_globals (g g' : Globals) (name truth : string)
    (rt rf : list rule) (row : Row) :
  verbose g = verbose g' -> list_flag g = list_flag g' ->
  row_events rule_match g name truth rt rf row
  = row_events rule_match g' name truth rt rf row.
Proof.
  intros Hv Hl. unfold row_events, list_line. now rewrite Hv, Hl.
Qed.

Lemma pass_body_globals (g g' : Globals) (rows : list Row) (e : ProxyEntry) :
  verbose g = verbose g' -> list_flag g = list_flag g' ->
  pass_body rnd yara_compile rule_match g rows e
  = pass_body rnd yara_compile rule_match g' rows e.
Proof.
  intros Hv Hl. unfold pass_body.
  apply bind_ext; intros _. apply bind_ext; intro rt. apply bind_ext; intro rf.
  rewrite (row_loop_eq rule_match g [ip e] [proxy e] 0 (ip e) (proxy e))
    by reflexivity.
  rewrite (row_loop_eq rule_match g' [ip e] [proxy e] 0 (ip e) (proxy e))
    by reflexivity.
  f_equal. f_equal. apply flat_map_ext. intro row.
  now apply row_events_globals.
Qed.

Lemma entries_loop_filter (g g' : Globals) (rows : list Row)
    (es : list ProxyEntry) :
  verbose g = verbose g' -> list_flag g = list_flag g' ->
  specific_proxy g' = None ->
  entries_loop rnd yara_compile rule_match str_lower g rows es
  = entries_loop rnd yara_compile rule_match str_lower g' rows
                 (filter (selected str_lower g) es).
Proof.
  intros Hv Hl Hn. induction es as [| e es IH]; [reflexivity |].
  cbn [entries_loop filter].
  destruct (selected str_lower g e); [| exact IH].
  cbn [entries_loop].
  assert (Hsel : selected str_lower g' e = true)
    by (unfold selected; now rewrite Hn).
  now rewrite Hsel, IH, (pass_body_globals g g' rows e Hv Hl).
Qed.

End RunFacts.

(** ** Traces without the per-record lines *)

Lemma summary_app (a b : list event) : summary (a ++ b) = summary a ++ summary b.
Proof. apply filter_app. Qed.

Lemma same_summary_refl {A} (m : M A) : same_summary m m.
Proof. now split. Qed.

Lemma same_summary_bind {A B} (m1 m2 : M A) (f1 f2 : A -> M B) :
  same_summary m1 m2 ->
  (forall a, same_summary (f1 a) (f2 a)) ->
  same_summary (bind m1 f1) (bind m2 f2).
Proof.
  destruct m1 as [t1 r1], m2 as [t2 r2]. intros [Ht Hr] Hf.
  cbn [fst snd] in Ht, Hr. subst r2. destruct r1 as [a | c | e]; [| now split ..].
  rewrite !bind_done. destruct (Hf a) as [Hta Hra].
  split; cbn [fst snd]; [| exact Hra].
  now rewrite !summary_app, Ht, Hta.
Qed.

Lemma same_summary_except {A} (m1 m2 : M A) :
  same_summary m1 m2 -> same_summary (except_sqlite m1) (except_sqlite m2).
Proof.
  destruct m1 as [t1 r1], m2 as [t2 r2]. intros [Ht Hr].
  cbn [fst snd] in Ht, Hr. subst r2. destruct r1 as [a | c | [| | e]]; try now split.
  split; cbn [except_sqlite fst snd]; [| reflexivity].
  now rewrite !summary_app, Ht.
Qed.

Section SummaryFacts.

Context {rule ymatch : Type}.
Variable rnd : Q -> Q.
Variable yara_compile : string -> compiled rule.
Variable rule_match : rule -> string -> list ymatch.
Variable str_lower : string -> string.

Lemma summary_verbose_line (k : cell) (id name h : string) :
  summary (verbose_line k id name h) = [].
Proof. now destruct k. Qed.

Lemma summary_list_line (g : Globals) (k : cell) (id name h : string) :
  summary (list_line g k id name h) = [].
Proof.
  unfold list_line. destruct (list_flag g) as [f |]; [| reflexivity].
  now destruct (String.eqb f (cell_flag k)).
Qed.

Lemma summary_row_events (g g' : Globals) (name truth : string)
    (rt rf : list rule) (row : Row) :
  summary (row_events rule_match g name truth rt rf row)
  = summary (row_events rule_match g' name truth rt rf row).
Proof.
  unfold row_events. destruct (payload row) as [h |]; [| reflexivity].
  rewrite !summary_app, !summary_list_line.
  destruct (verbose g), (verbose g'); now rewrite ?summary_verbose_line.
Qed.

Lemma summary_flat_map {A} (f f' : A -> list event) (l : list A) :
  (forall a, summary (f a) = summary (f' a)) ->
  summary (flat_map f l) = summary (flat_map f' l).
Proof.
  intro E. induction l as [| a l IH]; [reflexivity |].
  cbn [flat_map]. now rewrite !summary_app, E, IH.
Qed.

Lemma pass_body_summary (g g' : Globals) (rows : list Row) (e : ProxyEntry) :
  same_summary (pass_body rnd yara_compile rule_match g rows e)
               (pass_body rnd yara_compile rule_match g' rows e).
Proof.
  unfold pass_body.
  apply same_summary_bind; [apply same_summary_refl | intros _].
  apply same_summary_bind; [apply same_summary_refl | intro rt].
  apply same_summary_bind; [apply same_summary_refl | intro rf].
  apply same_summary_bind; [| intro c; apply same_summary_refl].
  rewrite (row_loop_eq rule_match g [ip e] [proxy e] 0 (ip e) (proxy e))
    by reflexivity.
  rewrite (row_loop_eq rule_match g' [ip e] [proxy e] 0 (ip e) (proxy e))
    by reflexivity.
  split; [| reflexivity]. cbn [fst].
  apply summary_flat_map. intro row. apply summary_row_events.
Qed.

Lemma entries_loop_summary (g g' : Globals) (rows : list Row)
    (es : list ProxyEntry) :
  specific_proxy g = specific_proxy g' ->
  same_summary (entries_loop rnd yara_compile rule_match str_lower g rows es)
               (entries_loop rnd yara_compile rule_match str_lower g' rows es).
Proof.
  intro Hsp. induction es as [| e es IH]; [apply same_summary_refl |].
  cbn [entries_loop].
  assert (Hsel : selected str_lower g e = selected str_lower g' e)
    by (unfold selected; now rewrite Hsp).
  rewrite <- Hsel. destruct (selected str_lower g e); [| exact IH].
  apply same_summary_bind; [apply pass_body_summary | intros _; exact IH].
Qed.

(** The result of one row does not depend on the verbosity or on the
    category filter, whatever the index. *)
Lemma score_row_result (g g' : Globals) (ips proxies : list string) (i : nat)
    (rt rf : list rule) (c : Counters) (row : Row) :
  snd (score_row rule_match g ips proxies i rt rf c row)
  = snd (score_row rule_match g' ips proxies i rt rf c row).
Proof.
  unfold score_row, print_list, index.
  destruct (headers_text row) as [h |]; [| reflexivity].
  destruct (String.eqb h ""); [reflexivity |]. cbn [negb].
  rewrite classify_eq.
  destruct (positive rule_match rt rf h);
    repeat (cbn [bind ret raise print fst snd negb];
            match goal with
            | |- context [nth_error ?l ?n] => destruct (nth_error l n)
            | |- context [String.eqb (ip_text row) ?t] =>
                destruct (String.eqb (ip_text row) t)
            | |- context [flag_eqb ?l ?f] => destruct (flag_eqb l f)
            | |- context [verbose ?x] => destruct (verbose x)
            end);
    reflexivity.
Qed.

Lemma snd_bind {A B} (m1 m2 : M A) (f1 f2 : A -> M B) :
  snd m1 = snd m2 -> (forall a, snd (f1 a) = snd (f2 a)) ->
  snd (bind m1 f1) = snd (bind m2 f2).
Proof.
  destruct m1 as [t1 r1], m2 as [t2 r2]. cbn [snd]. intros <- Hf.
  destruct r1 as [a | c | e]; [| reflexivity ..].
  rewrite !bind_done. apply Hf.
Qed.

Lemma row_loop_result (g g' : Globals) (ips proxies : list string) (i : nat)
    (rt rf : list rule) (rows : list Row) (c : Counters) :
  snd (row_loop rule_match g ips proxies i rt rf rows c)
  = snd (row_loop rule_match g' ips proxies i rt rf rows c).
Proof.
  revert c. induction rows as [| row rows IH]; intro c; [reflexivity |].
  cbn [row_loop]. apply snd_bind; [apply score_row_result | exact IH].
Qed.

End SummaryFacts.

(** ** Failed compile calls *)

Section AbortFacts.

Context {rule ymatch : Type}.
Variable rnd : Q -> Q.
Variable yara_compile : string -> compiled rule.
Variable rule_match : rule -> string -> list ymatch.
Variable str_lower : string -> string.

Local Abbreviation clean := (clean yara_compile).
Local Abbreviation stops := (stops_at_failure yara_compile).

Lemma clean_nil : clean [].
Proof. intros p []. Qed.

Lemma clean_app (a b : list event) : clean a -> clean b -> clean (a ++ b).
Proof.
  intros Ha Hb p Hin. apply in_app_or in Hin. destruct Hin; auto.
Qed.

(** A trace without compile calls is clean. *)
Lemma clean_no_compile (t : list event) :
  (forall p, ~ In (YaraCompile p) t) -> clean t.
Proof. intros H p Hin. now apply H in Hin. Qed.

Lemma clean_print (l : line) : clean [Print l].
Proof. apply clean_no_compile. intros p [H | []]. discriminate. Qed.

Lemma stops_bind {A B} (m : M A) (f : A -> M B) :
  stops m -> (forall a, stops (f a)) -> stops (bind m f).
Proof.
  destruct m as [t r]. intros [Hc | (t0 & p & Hc & Hf & Ht & Hr)] Hk.
  - cbn [fst] in Hc. destruct r as [a | c | e]; [| now left ..].
    rewrite bind_done.
    destruct (Hk a) as [Hca | (t1 & p & Hc1 & Hf & Ht & Hr)].
    + left. now apply clean_app.
    + right. exists (t ++ t1), p. cbn [fst snd].
      repeat split; [now apply clean_app | exact Hf | | exact Hr].
      now rewrite Ht, app_assoc.
  - cbn [fst snd] in Ht, Hr. subst r. right. exists t0, p. now repeat split.
Qed.

Lemma stops_prefix {A} (t : list event) (m : M A) :
  clean t -> stops m -> stops (t ++ fst m, snd m).
Proof.
  intros Ht Hm.
  replace (t ++ fst m, snd m) with (bind (t, Done tt) (fun _ => m))
    by (rewrite bind_done; reflexivity).
  apply stops_bind; [now left | intros _; exact Hm].
Qed.

Lemma load_loop_stops (paths : list string) (acc : list rule) :
  stops (load_loop yara_compile paths acc).
Proof.
  revert acc. induction paths as [| p paths IH]; intro acc.
  - left. apply clean_nil.
  - cbn [load_loop]. rewrite !bind_done. cbn [fst snd app].
    destruct (yara_compile p) as [r | e | e] eqn:E.
    + apply (stops_prefix [Print (LLoading p); YaraCompile p]); [| apply IH].
      intros q [H | [H | []]]; [discriminate |].
      injection H as <-. now rewrite E.
    + right. exists [Print (LLoading p)], p. unfold diagnostic. rewrite E.
      split; [apply clean_print | split; [reflexivity | split; reflexivity]].
    + right. exists [Print (LLoading p)], p. unfold diagnostic. rewrite E.
      split; [apply clean_print | split; [reflexivity | split; reflexivity]].
Qed.

Lemma row_events_no_compile (g : Globals) (name truth : string)
    (rt rf : list rule) (row : Row) (p : string) :
  ~ In (YaraCompile p) (row_events rule_match g name truth rt rf row).
Proof.
  unfold row_events. destruct (payload row) as [h |]; [| intros []].
  rewrite !in_app_iff. unfold scan_events, list_line.
  intros [H | [H | [H | H]]].
  - apply in_map_iff in H. destruct H as (? & ? & _). discriminate.
  - apply in_map_iff in H. destruct H as (? & ? & _). discriminate.
  - destruct (verbose g); [| destruct H].
    destruct (cell_table _ _); cbn in H; intuition discriminate.
  - destruct (list_flag g) as [f |]; [| destruct H].
    destruct (String.eqb f _); cbn in H; intuition discriminate.
Qed.

Lemma report_clean (c : Counters) : clean (fst (report rnd c)).
Proof.
  apply clean_no_compile. intros p.
  destruct (Z.eq_dec (total c) 0) as [Hz | Hnz].
  - rewrite (report_zero rnd c Hz). cbn. intuition discriminate.
  - rewrite (report_ok rnd c Hnz). cbn. intuition discriminate.
Qed.

Lemma pass_body_stops (g : Globals) (rows : list Row) (e : ProxyEntry) :
  stops (pass_body rnd yara_compile rule_match g rows e).
Proof.
  unfold pass_body.
  apply stops_bind; [left; apply clean_print | intros _].
  apply stops_bind; [apply load_loop_stops | intro rt].
  apply stops_bind; [apply load_loop_stops | intro rf].
  apply stops_bind; [| intro c; left; apply report_clean].
  rewrite (row_loop_eq rule_match g [ip e] [proxy e] 0 (ip e) (proxy e))
    by reflexivity.
  left. apply clean_no_compile. intros p Hin. cbn [fst] in Hin.
  apply in_flat_map in Hin. destruct Hin as (row & _ & Hin).
  exact (row_events_no_compile _ _ _ _ _ _ _ Hin).
Qed.

Lemma entries_loop_stops (g : Globals) (rows : list Row) (es : list ProxyEntry) :
  stops (entries_loop rnd yara_compile rule_match str_lower g rows es).
Proof.
  induction es as [| e es IH]; [left; apply clean_nil |].
  cbn [entries_loop]. destruct (selected str_lower g e); [| exact IH].
  apply stops_bind; [apply pass_body_stops | intros _; exact IH].
Qed.

Lemma except_sqlite_stops {A} (m : M A) : stops m -> stops (except_sqlite m).
Proof.
  destruct m as [t r]. intros [Hc | (t0 & p & Hc & Hf & Ht & Hr)].
  - left. cbn [fst] in Hc. destruct r as [a | c | [| | e]]; try exact Hc.
    cbn [except_sqlite fst]. apply clean_app; [exact Hc | apply clean_print].
  - cbn [snd] in Hr. subst r. right. exists t0, p. now repeat split.
Qed.

Lemma scan_stops (load_proxies : string -> list ProxyEntry)
    (open_store : string -> Store) (g : Globals) (db_path config_file : string) :
  stops (scan_sqlite_database rnd yara_compile rule_match str_lower
                              load_proxies open_store g db_path config_file).
Proof.
  rewrite scan_entries. apply except_sqlite_stops.
  apply stops_bind; [| intro rows; apply entries_loop_stops].
  left. destruct (open_store db_path); apply clean_nil.
Qed.

Lemma parse_arg_clean (str_upper : string -> string) (g : Globals) (arg : string) :
  clean (fst (parse_arg str_upper g arg)).
Proof.
  unfold parse_arg, index.
  destruct (String.eqb arg "-v"); [apply clean_print |].
  destruct (String.prefix "flag=" arg);
    [destruct (nth_error (split_eq arg) 1); apply clean_nil |].
  destruct (String.prefix "proxy=" arg);
    [destruct (nth_error (split_eq arg) 1); apply clean_nil |].
  apply clean_nil.
Qed.

Lemma args_loop_stops (str_upper : string -> string) (args : list string)
    (g : Globals) :
  stops (args_loop str_upper args g).
Proof.
  revert g. induction args as [| arg args IH]; intro g.
  - left. apply clean_nil.
  - cbn [args_loop]. apply stops_bind; [left; apply parse_arg_clean | exact IH].
Qed.

Lemma main_stops (str_upper : string -> string)
    (load_proxies : string -> list ProxyEntry) (open_store : string -> Store)
    (argv : list string) :
  stops (main rnd yara_compile rule_match str_lower str_upper
              load_proxies open_store argv).
Proof.
  unfold main. destruct (Z.of_nat (List.length argv) <? 3).
  - left. apply clean_print.
  - apply stops_bind; [left; unfold index; destruct nth_error; apply clean_nil |].
    intro db.
    apply stops_bind; [left; unfold index; destruct nth_error; apply clean_nil |].
    intro cfg. apply stops_bind; [apply args_loop_stops | intro g].
    apply scan_stops.
Qed.

(** A failed compile call in the trace of a stopping computation is its
    last call; the trace ends with its diagnostic and the result is exit
    status 1. *)
Lemma stops_at {A} (m : M A) (p : string) :
  stops m -> In (YaraCompile p) (fst m) -> failed (yara_compile p) = true ->
  snd m = Exit 1
  /\ exists t, clean t /\ fst m = t ++ diagnostic yara_compile p.
Proof.
  intros [Hc | (t & q & Hc & Hf & Ht & Hr)] Hin Hfail.
  - apply Hc in Hin. congruence.
  - split; [exact Hr |]. exists t. split; [exact Hc |].
    rewrite Ht in Hin. apply in_app_or in Hin. destruct Hin as [Hin | Hin].
    + apply Hc in Hin. congruence.
    + assert (q = p) as ->; [| exact Ht].
      unfold diagnostic in Hin.
      destruct (yara_compile q); cbn in Hin; [destruct Hin | |];
        destruct Hin as [H | [H | []]]; congruence.
Qed.

End AbortFacts.

(** ** The classifier and the scorer *)

(** C1. For every pair of pattern sets and every payload (in particular
    every non-empty one), the detection test returns normally, and its
    outcome is positive exactly when the positive pattern set has at least
    one match on the payload and the negative pattern set has none; in
    every other case, also when both sets match, it is negative. *)
Theorem classify_positive_iff {rule ymatch : Type}
    (rule_match : rule -> string -> list ymatch)
    (rules_true rules_false : list rule) (headers : string) :
  exists outcome : bool,
    result_of (classify rule_match rules_true rules_false headers) = Done outcome
    /\ (outcome = true <->
        has_match rule_match rules_true headers
        /\ ~ has_match rule_match rules_false headers)
    /\ (has_match rule_match rules_false headers -> outcome = false).
Proof.
  exists (positive rule_match rules_true rules_false headers).
  rewrite classify_eq. split; [reflexivity |].
  unfold positive. rewrite andb_true_iff, negb_true_iff.
  rewrite <- !truthy_matches. split.
  - split.
    + intros [Ht Hf]. split; [exact Ht | congruence].
    + intros [Ht Hf]. split; [exact Ht |]. now apply not_true_is_false.
  - intros ->. apply andb_false_r.
Qed.

(** C2. In the pass of an identity with ground-truth address [truth], a
    record with a non-empty payload moves exactly one cell by one, the cell
    given by the table (positive and same address: TP; positive and another
    address: FP; negative and same address: FN; negative and another
    address: TN), and after the pass each of TP, FP, TN, FN equals the
    number of records of its cell. *)
Theorem pass_cells_follow_table {rule ymatch : Type}
    (rule_match : rule -> string -> list ymatch) (g : Globals)
    (ips proxies : list string) (i : nat) (truth name : string)
    (rules_true rules_false : list rule) :
  nth_error ips i = Some truth ->
  nth_error proxies i = Some name ->
  (forall (c : Counters) (row : Row) (h : string) (outcome : bool),
      payload row = Some h ->
      result_of (classify rule_match rules_true rules_false h) = Done outcome ->
      exists c',
        result_of
          (score_row rule_match g ips proxies i rules_true rules_false c row)
        = Done c'
        /\ (outcome = true -> ip_text row = truth ->
            TP c' = TP c + 1 /\ FP c' = FP c /\ TN c' = TN c /\ FN c' = FN c)
        /\ (outcome = true -> ip_text row <> truth ->
            TP c' = TP c /\ FP c' = FP c + 1 /\ TN c' = TN c /\ FN c' = FN c)
        /\ (outcome = false -> ip_text row = truth ->
            TP c' = TP c /\ FP c' = FP c /\ TN c' = TN c /\ FN c' = FN c + 1)
        /\ (outcome = false -> ip_text row <> truth ->
            TP c' = TP c /\ FP c' = FP c /\ TN c' = TN c + 1 /\ FN c' = FN c))
  /\ (forall rows : list Row,
      exists c,
        result_of
          (row_loop rule_match g ips proxies i rules_true rules_false
                    rows counters0)
        = Done c
        /\ TP c = count_cell rule_match rules_true rules_false truth CellTP rows
        /\ FP c = count_cell rule_match rules_true rules_false truth CellFP rows
        /\ TN c = count_cell rule_match rules_true rules_false truth CellTN rows
        /\ FN c = count_cell rule_match rules_true rules_false truth CellFN rows).
Proof.
  intros Hip Hname. split.
  - intros c row h outcome Hpay Hout.
    rewrite classify_eq in Hout. cbn in Hout. injection Hout as <-.
    rewrite (score_row_eq rule_match g ips proxies i truth name Hip Hname).
    eexists. split; [reflexivity |].
    unfold cell_of. rewrite Hpay.
    pose proof (bump_cell
                  (Some (cell_table (positive rule_match rules_true rules_false h)
                                    (String.eqb (ip_text row) truth)))) as B.
    pose proof (B CellTP c) as BTP. pose proof (B CellFP c) as BFP.
    pose proof (B CellTN c) as BTN. pose proof (B CellFN c) as BFN.
    cbn [cell_value] in BTP, BFP, BTN, BFN.
    split; [| split; [| split]]; intros Hpos Haddr;
      try (apply String.eqb_eq in Haddr); try (apply String.eqb_neq in Haddr);
      rewrite Hpos, Haddr in *; cbn [cell_table cell_eqb] in *;
      repeat split; lia.
  - intro rows.
    rewrite (row_loop_eq rule_match g ips proxies i truth name Hip Hname).
    eexists. split; [reflexivity |].
    pose proof (fun k => fold_cell rule_match rules_true rules_false truth k
                                   rows counters0) as F.
    pose proof (F CellTP) as FTP. pose proof (F CellFP) as FFP.
    pose proof (F CellTN) as FTN. pose proof (F CellFN) as FFN.
    cbn [cell_value] in FTP, FFP, FTN, FFN.
    change (TP counters0) with 0 in FTP. change (FP counters0) with 0 in FFP.
    change (TN counters0) with 0 in FTN. change (FN counters0) with 0 in FFN.
    repeat split; lia.
Qed.

Lemma Qpos_nonpos (q : Q) : Qpos q = false <-> (q <= 0)%Q.
Proof. unfold Qpos. rewrite negb_false_iff. apply Qle_bool_iff. Qed.

(** C3. For every confusion matrix (cells that are non-negative integers)
    the three metrics are computed without error, whatever the rounding.
    Precision is the float TP/(TP+FP) when TP+FP > 0 and the integer 0 when
    TP+FP = 0; recall is TP/(TP+FN) when TP+FN > 0 and 0 when TP+FN = 0.
    F1 is the integer 0 when both are the integer 0.  Otherwise, with [P]
    and [R] the floats of precision and recall (the float of the integer 0
    is [rnd 0]), F1 is the float of 2*(P*R)/(P+R), that is
    [rnd (rnd (rnd 2 * rnd (P * R)) / rnd (P + R))], when the float of P+R
    is positive, and the integer 0 when it is not. *)
Theorem metrics_exact (rnd : Q -> Q) (c : Counters) :
  0 <= TP c -> 0 <= FP c -> 0 <= FN c ->
  exists precision recall f1_score : num,
    precision_of rnd (TP c) (FP c) = ret precision
    /\ recall_of rnd (TP c) (FN c) = ret recall
    /\ f1_of rnd precision recall = ret f1_score
    /\ (0 < TP c + FP c ->
        precision
        = NFloat (rnd (inject_Z (TP c) / inject_Z (TP c + FP c))%Q))
    /\ (TP c + FP c = 0 -> precision = NInt 0)
    /\ (0 < TP c + FN c ->
        recall
        = NFloat (rnd (inject_Z (TP c) / inject_Z (TP c + FN c))%Q))
    /\ (TP c + FN c = 0 -> recall = NInt 0)
    /\ (num_gt0 (num_add rnd precision recall) = true ->
        truediv rnd (num_mul rnd (NInt 2) (num_mul rnd precision recall))
                    (num_add rnd precision recall)
        = ret f1_score)
    /\ (num_gt0 (num_add rnd precision recall) = false -> f1_score = NInt 0)
    /\ (TP c + FP c = 0 -> TP c + FN c = 0 -> f1_score = NInt 0)
    /\ (let P := if 0 <? TP c + FP c
                 then rnd (inject_Z (TP c) / inject_Z (TP c + FP c))%Q
                 else rnd 0%Q in
        let R := if 0 <? TP c + FN c
                 then rnd (inject_Z (TP c) / inject_Z (TP c + FN c))%Q
                 else rnd 0%Q in
        0 < TP c + FP c \/ 0 < TP c + FN c ->
        ((0 < rnd (P + R)%Q)%Q ->
         f1_score
         = NFloat (rnd (rnd (rnd 2%Q * rnd (P * R)%Q)%Q / rnd (P + R)%Q)%Q))
        /\ ((rnd (P + R)%Q <= 0)%Q -> f1_score = NInt 0)).
Proof.
  intros _ _ _.
  exists (precision_q rnd (TP c) (FP c)), (precision_q rnd (TP c) (FN c)).
  exists (f1_q rnd (precision_q rnd (TP c) (FP c))
                   (precision_q rnd (TP c) (FN c))).
  split; [apply precision_of_eq |].
  split; [apply recall_of_eq |].
  split; [apply f1_of_eq |].
  split; [| split; [| split; [| split; [| split; [| split; [| split]]]]]].
  - intro H. unfold precision_q. apply Z.ltb_lt in H. now rewrite H.
  - intro H. unfold precision_q. now rewrite H.
  - intro H. unfold precision_q. apply Z.ltb_lt in H. now rewrite H.
  - intro H. unfold precision_q. now rewrite H.
  - intro H. pose proof (f1_of_eq rnd (precision_q rnd (TP c) (FP c))
                                  (precision_q rnd (TP c) (FN c))) as E.
    unfold f1_of in E. now rewrite H in E.
  - intro H. unfold f1_q. now rewrite H.
  - intros H1 H2. unfold precision_q. now rewrite H1, H2.
  - cbn zeta. unfold precision_q, f1_q.
    destruct (0 <? TP c + FP c) eqn:E1, (0 <? TP c + FN c) eqn:E2;
      cbn [num_add num_mul num_gt0 to_float quotient];
      change (inject_Z 0) with 0%Q; change (inject_Z 2) with 2%Q;
      intros Hpos.
    + split; intro H;
        [apply Qpos_true in H | apply Qpos_nonpos in H]; now rewrite H.
    + split; intro H;
        [apply Qpos_true in H | apply Qpos_nonpos in H]; now rewrite H.
    + split; intro H;
        [apply Qpos_true in H | apply Qpos_nonpos in H]; now rewrite H.
    + apply Z.ltb_ge in E1, E2. lia.
Qed.

(** C4. In the pass of an identity, a record without payload (absent or
    empty) adds one to the running total and changes no cell, a record with
    a payload adds one to the total and one to exactly one cell; so after
    the pass the total is the number of records, the cell sum is at most
    the total, and the total minus the cell sum is the number of records
    without payload. *)
Theorem empty_payload_only_in_total {rule ymatch : Type}
    (rule_match : rule -> string -> list ymatch) (g : Globals)
    (ips proxies : list string) (i : nat) (truth name : string)
    (rules_true rules_false : list rule) :
  nth_error ips i = Some truth ->
  nth_error proxies i = Some name ->
  (forall (c : Counters) (row : Row),
      exists c',
        result_of
          (score_row rule_match g ips proxies i rules_true rules_false c row)
        = Done c'
        /\ total c' = total c + 1
        /\ (payload row = None ->
            TP c' = TP c /\ FP c' = FP c /\ TN c' = TN c /\ FN c' = FN c)
        /\ (payload row <> None ->
            TP c' + FP c' + TN c' + FN c' = TP c + FP c + TN c + FN c + 1
            /\ TP c <= TP c' /\ FP c <= FP c' /\ TN c <= TN c' /\ FN c <= FN c'))
  /\ (forall rows : list Row,
      exists c,
        result_of
          (row_loop rule_match g ips proxies i rules_true rules_false
                    rows counters0)
        = Done c
        /\ total c = Z.of_nat (List.length rows)
        /\ TP c + FP c + TN c + FN c <= total c
        /\ total c - (TP c + FP c + TN c + FN c) = count_no_payload rows).
Proof.
  intros Hip Hname. split.
  - intros c row.
    rewrite (score_row_eq rule_match g ips proxies i truth name Hip Hname).
    eexists. split; [reflexivity |].
    split; [apply bump_total |].
    pose proof (bump_cell
                  (cell_of rule_match rules_true rules_false truth row)) as B.
    pose proof (B CellTP c) as BTP. pose proof (B CellFP c) as BFP.
    pose proof (B CellTN c) as BTN. pose proof (B CellFN c) as BFN.
    cbn [cell_value] in BTP, BFP, BTN, BFN.
    unfold cell_of in *. split.
    + intros Hnone. rewrite Hnone in *. repeat split; lia.
    + intros Hsome. destruct (payload row) as [h |]; [| congruence].
      destruct (cell_table _ _); cbn [cell_eqb] in *; repeat split; lia.
  - intro rows.
    rewrite (row_loop_eq rule_match g ips proxies i truth name Hip Hname).
    eexists. split; [reflexivity |].
    pose proof (fun k => fold_cell rule_match rules_true rules_false truth k
                                   rows counters0) as F.
    pose proof (F CellTP) as FTP. pose proof (F CellFP) as FFP.
    pose proof (F CellTN) as FTN. pose proof (F CellFN) as FFN.
    cbn [cell_value] in FTP, FFP, FTN, FFN.
    change (TP counters0) with 0 in FTP. change (FP counters0) with 0 in FFP.
    change (TN counters0) with 0 in FTN. change (FN counters0) with 0 in FFN.
    pose proof (classes_partition rule_match rules_true rules_false truth rows).
    rewrite fold_total. change (total counters0) with 0.
    assert (0 <= count_no_payload rows) by (unfold count_no_payload; lia).
    repeat split; lia.
Qed.

(** C5. After the pass of an identity over any list of records, TP, FP, TN
    and FN are non-negative integers, and precision, recall and F1 are
    computed without error and lie between 0 and 1, for every rounding
    that is monotone, leaves rounded numbers unchanged and represents 0, 1
    and 2. *)
Theorem cells_nonneg_metrics_bounded {rule ymatch : Type} (rnd : Q -> Q)
    (rule_match : rule -> string -> list ymatch) (g : Globals)
    (ips proxies : list string) (i : nat) (truth name : string)
    (rules_true rules_false : list rule) (rows : list Row) :
  rounding rnd ->
  nth_error ips i = Some truth ->
  nth_error proxies i = Some name ->
  exists (c : Counters) (precision recall f1_score : num),
    result_of
      (row_loop rule_match g ips proxies i rules_true rules_false rows counters0)
    = Done c
    /\ 0 <= TP c /\ 0 <= FP c /\ 0 <= TN c /\ 0 <= FN c
    /\ 0 <= total_from_proxy c - fail_from_proxy c
    /\ 0 <= total_not_from_proxy c - fail_not_from_proxy c
    /\ precision_of rnd (TP c) (FP c) = ret precision
    /\ recall_of rnd (TP c) (FN c) = ret recall
    /\ f1_of rnd precision recall = ret f1_score
    /\ (0 <= num_value precision <= 1)%Q
    /\ (0 <= num_value recall <= 1)%Q
    /\ (0 <= num_value f1_score <= 1)%Q.
Proof.
  intros R Hip Hname.
  rewrite (row_loop_eq rule_match g ips proxies i truth name Hip Hname).
  set (c := fold_left _ rows counters0).
  pose proof (fun k => fold_cell rule_match rules_true rules_false truth k
                                 rows counters0) as F.
  pose proof (fun k => count_cell_nonneg rule_match rules_true rules_false
                                         truth k rows) as N.
  pose proof (F CellTP) as FTP. pose proof (F CellFP) as FFP.
  pose proof (F CellTN) as FTN. pose proof (F CellFN) as FFN.
  pose proof (N CellTP) as NTP. pose proof (N CellFP) as NFP.
  pose proof (N CellTN) as NTN. pose proof (N CellFN) as NFN.
  cbn [cell_value] in FTP, FFP, FTN, FFN. fold c in FTP, FFP, FTN, FFN.
  change (TP counters0) with 0 in FTP. change (FP counters0) with 0 in FFP.
  change (TN counters0) with 0 in FTN. change (FN counters0) with 0 in FFN.
  assert (HTP : 0 <= TP c) by lia. assert (HFP : 0 <= FP c) by lia.
  assert (HTN : 0 <= TN c) by lia. assert (HFN : 0 <= FN c) by lia.
  pose proof (precision_q_unit rnd R (TP c) (FP c) HTP HFP) as UP.
  pose proof (precision_q_unit rnd R (TP c) (FN c) HTP HFN) as UR.
  pose proof (f1_q_unit rnd R _ _ UP UR) as UF.
  assert (Hval : forall x, unit_num rnd x -> (0 <= num_value x <= 1)%Q).
  { intros x (Hb & _ & Hv). now rewrite Hv. }
  exists c, (precision_q rnd (TP c) (FP c)), (precision_q rnd (TP c) (FN c)).
  exists (f1_q rnd (precision_q rnd (TP c) (FP c))
                   (precision_q rnd (TP c) (FN c))).
  split; [reflexivity |].
  split; [exact HTP |]. split; [exact HFP |].
  split; [exact HTN |]. split; [exact HFN |].
  split; [exact HTP |]. split; [exact HTN |].
  split; [apply precision_of_eq |].
  split; [apply recall_of_eq |].
  split; [apply f1_of_eq |].
  split; [now apply Hval |]. split; now apply Hval.
Qed.

(** ** The run controller *)

(** C6. With a non-empty proxy filter, the ruleset loop evaluates an
    identity exactly when its name equals the filter after lowercasing
    both: an identity that does not match is skipped with no effect at all
    (no line printed, no rule file compiled, no record scanned), and the
    whole run equals the run without filter over the matching identities
    alone, kept in configuration order. *)
Theorem proxy_filter_selects {rule ymatch : Type} (rnd : Q -> Q)
    (yara_compile : string -> compiled rule)
    (rule_match : rule -> string -> list ymatch)
    (str_lower : string -> string)
    (load_proxies : string -> list ProxyEntry) (open_store : string -> Store)
    (g : Globals) (sp : string) :
  specific_proxy g = Some sp ->
  sp <> "" ->
  let matches (name : string) := String.eqb (str_lower name) (str_lower sp) in
  (forall ips proxies rows i name ruleset_paths rest,
      nth_error proxies i = Some name ->
      matches name = false ->
      ruleset_loop rnd yara_compile rule_match str_lower g ips proxies rows i
                   (ruleset_paths :: rest)
      = ruleset_loop rnd yara_compile rule_match str_lower g ips proxies rows (S i)
                     rest)
  /\ (forall ips proxies rows i name ruleset_paths rest,
      nth_error proxies i = Some name ->
      matches name = true ->
      ruleset_loop rnd yara_compile rule_match str_lower g ips proxies rows i
                   (ruleset_paths :: rest)
      = (print (LParsingRuleset name) ;;;
         rules_true <-
           load_yara_rules yara_compile (should_be_true ruleset_paths) ;;
         rules_false <-
           load_yara_rules yara_compile (get_should_be_false ruleset_paths) ;;
         c <- row_loop rule_match g ips proxies i rules_true rules_false
                       rows counters0 ;;
         report rnd c ;;;
         ruleset_loop rnd yara_compile rule_match str_lower g ips proxies rows (S i)
                      rest))
  /\ (forall db_path config_file,
      scan_sqlite_database rnd yara_compile rule_match str_lower
                           load_proxies open_store g db_path config_file
      = scan_sqlite_database rnd yara_compile rule_match str_lower
          (fun f => filter (fun e => matches (proxy e)) (load_proxies f))
          open_store
          (mkGlobals (verbose g) (list_flag g) None) db_path config_file).
Proof.
  intros Hsp Hne matches.
  assert (Hskip : forall proxies i name,
             nth_error proxies i = Some name ->
             skip_proxy str_lower g proxies i = ret (negb (matches name))).
  { intros proxies i name Hi. unfold skip_proxy. rewrite Hsp.
    apply String.eqb_neq in Hne. rewrite Hne. cbn [negb].
    now rewrite (index_some _ _ _ Hi), bind_ret_l. }
  split; [| split].
  - intros ips proxies rows i name rp rest Hi Hm. cbn [ruleset_loop].
    now rewrite (Hskip _ _ _ Hi), bind_ret_l, Hm.
  - intros ips proxies rows i name rp rest Hi Hm. cbn [ruleset_loop].
    rewrite (Hskip _ _ _ Hi), bind_ret_l, Hm. cbn [negb].
    now rewrite (index_some _ _ _ Hi), bind_ret_l.
  - intros db cfg. rewrite !scan_entries. f_equal.
    apply bind_ext; intro rows.
    rewrite (entries_loop_filter rnd yara_compile rule_match str_lower g
               (mkGlobals (verbose g) (list_flag g) None) rows
               (load_proxies cfg) eq_refl eq_refl eq_refl).
    f_equal. apply filter_ext. intro e. unfold selected. rewrite Hsp.
    apply String.eqb_neq in Hne. now rewrite Hne.
Qed.

(** C9. Every invocation with fewer than the two required positional
    arguments prints the usage line and exits with status 1; nothing else
    happens: no configuration is loaded, no rule file compiled, no record
    scanned. *)
Theorem missing_arguments_usage {rule ymatch : Type} (rnd : Q -> Q)
    (yara_compile : string -> compiled rule)
    (rule_match : rule -> string -> list ymatch)
    (str_lower str_upper : string -> string)
    (load_proxies : string -> list ProxyEntry) (open_store : string -> Store)
    (argv : list string) :
  (List.length argv < 3)%nat ->
  main rnd yara_compile rule_match str_lower str_upper load_proxies open_store argv
  = ([Print LUsage], Exit 1).
Proof.
  intro Hlen. unfold main.
  destruct (Z.of_nat (List.length argv) <? 3) eqn:E.
  - reflexivity.
  - apply Z.ltb_ge in E. lia.
Qed.

(** C7. The verbosity toggle and the category filter only add per-record
    lines.  Two runs over the same store and configuration whose globals
    differ at most in [verbose] and [list_flag] end with the same result and
    print the same trace once the per-record lines are removed: the same
    rule files compiled, the same records scanned, and for every identity
    the same total, cells, percentages and metrics.  The counters of a pass
    are the same as well, and the summary lines of a report are never
    per-record lines.  The run is a function of its inputs, so running it
    again on the same inputs gives the same trace and result. *)
Theorem flags_are_observational {rule ymatch : Type} (rnd : Q -> Q)
    (yara_compile : string -> compiled rule)
    (rule_match : rule -> string -> list ymatch)
    (str_lower : string -> string)
    (load_proxies : string -> list ProxyEntry) (open_store : string -> Store)
    (g1 g2 : Globals) (db_path config_file : string) :
  specific_proxy g1 = specific_proxy g2 ->
  summary (trace_of (scan_sqlite_database rnd yara_compile rule_match str_lower
                       load_proxies open_store g1 db_path config_file))
  = summary (trace_of (scan_sqlite_database rnd yara_compile rule_match str_lower
                         load_proxies open_store g2 db_path config_file))
  /\ result_of (scan_sqlite_database rnd yara_compile rule_match str_lower
                  load_proxies open_store g1 db_path config_file)
     = result_of (scan_sqlite_database rnd yara_compile rule_match str_lower
                    load_proxies open_store g2 db_path config_file)
  /\ (forall ips proxies i rules_true rules_false rows,
      result_of (row_loop rule_match g1 ips proxies i rules_true rules_false
                          rows counters0)
      = result_of (row_loop rule_match g2 ips proxies i rules_true rules_false
                            rows counters0))
  /\ (forall c, summary (trace_of (report rnd c)) = trace_of (report rnd c)).
Proof.
  intro Hsp.
  assert (S : same_summary
                (scan_sqlite_database rnd yara_compile rule_match str_lower
                   load_proxies open_store g1 db_path config_file)
                (scan_sqlite_database rnd yara_compile rule_match str_lower
                   load_proxies open_store g2 db_path config_file)).
  { rewrite !scan_entries. apply same_summary_except.
    apply same_summary_bind; [apply same_summary_refl | intro rows].
    now apply entries_loop_summary. }
  destruct S as [St Sr].
  split; [exact St |]. split; [exact Sr |]. split.
  - intros. apply row_loop_result.
  - intro c. unfold trace_of. destruct (Z.eq_dec (total c) 0) as [Hz | Hnz].
    + now rewrite (report_zero rnd c Hz).
    + now rewrite (report_ok rnd c Hnz).
Qed.

Lemma load_fails (rule : Type) (yara_compile : string -> compiled rule)
    (paths : list string) (acc : list rule) (p : string) :
  In p paths -> failed (yara_compile p) = true ->
  snd (load_loop yara_compile paths acc) = Exit 1.
Proof.
  revert acc. induction paths as [| q paths IH]; intros acc Hin Hf; [destruct Hin |].
  cbn [load_loop]. rewrite !bind_done. cbn [fst snd].
  destruct (yara_compile q) as [r | e | e] eqn:E; [| reflexivity ..].
  destruct Hin as [-> | Hin]; [rewrite E in Hf; discriminate |].
  now apply IH.
Qed.

Lemma load_succeeds (rule : Type) (yara_compile : string -> compiled rule)
    (paths : list string) (acc : list rule) :
  (forall p, In p paths -> failed (yara_compile p) = false) ->
  exists rules,
    load_loop yara_compile paths acc
    = (flat_map (fun p => [Print (LLoading p); YaraCompile p]) paths, Done rules).
Proof.
  revert acc. induction paths as [| q paths IH]; intros acc Hok.
  - now exists acc.
  - cbn [load_loop flat_map]. rewrite !bind_done. cbn [fst snd app].
    pose proof (Hok q (or_introl eq_refl)) as Hq.
    destruct (yara_compile q) as [r | e | e]; try discriminate.
    destruct (IH (acc ++ [r])) as (rules & E).
    { intros p Hp. apply Hok. now right. }
    exists rules. now rewrite E.
Qed.

Lemma entries_loop_skip {rule ymatch : Type} (rnd : Q -> Q)
    (yara_compile : string -> compiled rule)
    (rule_match : rule -> string -> list ymatch)
    (str_lower : string -> string) (g : Globals) (rows : list Row)
    (skipped es : list ProxyEntry) :
  (forall s, In s skipped -> selected str_lower g s = false) ->
  entries_loop rnd yara_compile rule_match str_lower g rows (skipped ++ es)
  = entries_loop rnd yara_compile rule_match str_lower g rows es.
Proof.
  induction skipped as [| s sk IH]; intro Hskip; [reflexivity |].
  cbn [app entries_loop]. rewrite (Hskip s (or_introl eq_refl)).
  apply IH. intros s' Hs'. apply Hskip. now right.
Qed.

(** C10. The report divides by the running total without a guard: it
    completes exactly when the total is not 0, and with total 0 it stops
    with a division by zero after the lines of the total and of the matrix
    header.  Hence, when the store yields no rows, the run stops with that
    division by zero in the report of the first identity that is evaluated
    (selected by the filter, all its rule files compiling). *)
Theorem empty_store_division_by_zero {rule ymatch : Type} (rnd : Q -> Q)
    (yara_compile : string -> compiled rule)
    (rule_match : rule -> string -> list ymatch)
    (str_lower : string -> string)
    (load_proxies : string -> list ProxyEntry) (open_store : string -> Store)
    (g : Globals) (db_path config_file : string)
    (skipped : list ProxyEntry) (e : ProxyEntry) (rest : list ProxyEntry) :
  let run := scan_sqlite_database rnd yara_compile rule_match str_lower
               load_proxies open_store g db_path config_file in
  open_store db_path = StoreRows [] ->
  load_proxies config_file = skipped ++ e :: rest ->
  (forall s, In s skipped -> selected str_lower g s = false) ->
  selected str_lower g e = true ->
  (forall p, In p (should_be_true (yara_ruleset e)
                   ++ get_should_be_false (yara_ruleset e)) ->
             failed (yara_compile p) = false) ->
  result_of run = Raise ZeroDivisionError
  /\ (exists t, trace_of run = t ++ [Print (LTotal 0); Print LConfusionMatrix])
  /\ (forall c, total c = 0 ->
        report rnd c = ([Print (LTotal 0); Print LConfusionMatrix],
                    Raise ZeroDivisionError))
  /\ (forall c, result_of (report rnd c) = Done tt <-> total c <> 0).
Proof.
  intros run Hstore Hcfg Hskip Hsel Hok.
  assert (Hrep : forall c, result_of (report rnd c) = Done tt <-> total c <> 0).
  { intro c. unfold result_of. destruct (Z.eq_dec (total c) 0) as [Hz | Hnz].
    - rewrite (report_zero rnd c Hz). cbn. split; [discriminate | congruence].
    - rewrite (report_ok rnd c Hnz). cbn. now split. }
  assert (Hrun : exists t,
             run = (t ++ [Print (LTotal 0); Print LConfusionMatrix],
                    Raise ZeroDivisionError)).
  { unfold run. rewrite scan_entries, Hstore, Hcfg. cbn [fetchall].
    rewrite bind_ret_l.
    rewrite (entries_loop_skip rnd yara_compile rule_match str_lower g []
               skipped (e :: rest) Hskip).
    cbn [entries_loop]. rewrite Hsel. unfold pass_body.
    destruct (load_succeeds rule yara_compile
                (should_be_true (yara_ruleset e)) []) as (rt & Ert).
    { intros p Hp. apply Hok, in_or_app. now left. }
    destruct (load_succeeds rule yara_compile
                (get_should_be_false (yara_ruleset e)) []) as (rf & Erf).
    { intros p Hp. apply Hok, in_or_app. now right. }
    unfold load_yara_rules. rewrite Ert, Erf.
    cbn [bind print ret row_loop].
    rewrite (report_zero rnd counters0 eq_refl). cbn [except_sqlite app].
    exists (Print (LParsingRuleset (proxy e))
            :: flat_map (fun p => [Print (LLoading p); YaraCompile p])
                 (should_be_true (yara_ruleset e))
            ++ flat_map (fun p => [Print (LLoading p); YaraCompile p])
                 (get_should_be_false (yara_ruleset e))).
    cbn [app]. now rewrite <- !app_assoc. }
  destruct Hrun as (t & Et).
  split; [now rewrite Et |]. split; [exists t; now rewrite Et |].
  split; [exact (report_zero rnd) | exact Hrep].
Qed.

(** ** The theorems at concrete inputs

    The concrete engine of [Demo]: identity "Acme" with address 1.2.3.4, the
    positive literal "via-acme" and the negative literal "direct"; the five
    rows of [Demo.sample_rows] fall into TP, FP, FN, no payload and TN. *)

Lemma pass_cells_follow_table_witness :
  nth_error ["1.2.3.4"] 0 = Some "1.2.3.4"
  /\ nth_error ["Acme"] 0 = Some "Acme"
  /\ exists c,
      result_of (Demo.row_loop globals0 Demo.acme ["via-acme"] ["direct"]
                               Demo.sample_rows) = Done c
      /\ TP c = 1 /\ FP c = 1 /\ TN c = 1 /\ FN c = 1.
Proof.
  split; [reflexivity |]. split; [reflexivity |].
  destruct (pass_cells_follow_table Demo.rule_match globals0
              ["1.2.3.4"] ["Acme"] 0 "1.2.3.4" "Acme" ["via-acme"] ["direct"]
              eq_refl eq_refl) as [_ H].
  destruct (H Demo.sample_rows) as (c & Hc & HTP & HFP & HTN & HFN).
  exists c. split; [exact Hc |].
  rewrite HTP, HFP, HTN, HFN. repeat split.
Defined.

Lemma empty_payload_only_in_total_witness :
  nth_error ["1.2.3.4"] 0 = Some "1.2.3.4"
  /\ nth_error ["Acme"] 0 = Some "Acme"
  /\ exists c,
      result_of (Demo.row_loop globals0 Demo.acme ["via-acme"] ["direct"]
                               Demo.sample_rows) = Done c
      /\ total c = 5
      /\ TP c + FP c + TN c + FN c <= total c
      /\ total c - (TP c + FP c + TN c + FN c) = 1.
Proof.
  split; [reflexivity |]. split; [reflexivity |].
  destruct (empty_payload_only_in_total Demo.rule_match globals0
              ["1.2.3.4"] ["Acme"] 0 "1.2.3.4" "Acme" ["via-acme"] ["direct"]
              eq_refl eq_refl) as [_ H].
  destruct (H Demo.sample_rows) as (c & Hc & Htot & Hle & Hdef).
  exists c. repeat split; assumption.
Defined.

Lemma Qred_rounding : rounding Demo.rnd.
Proof.
  unfold Demo.rnd. split; intros; rewrite ?Qred_correct;
    first [assumption | reflexivity].
Qed.

Lemma cells_nonneg_metrics_bounded_witness :
  rounding Demo.rnd
  /\ nth_error ["1.2.3.4"] 0 = Some "1.2.3.4"
  /\ nth_error ["Acme"] 0 = Some "Acme"
  /\ exists (c : Counters) (precision recall f1_score : num),
      result_of (Demo.row_loop globals0 Demo.acme ["via-acme"] ["direct"]
                               Demo.sample_rows) = Done c
      /\ 0 <= TP c /\ 0 <= FP c /\ 0 <= TN c /\ 0 <= FN c
      /\ 0 <= total_from_proxy c - fail_from_proxy c
      /\ 0 <= total_not_from_proxy c - fail_not_from_proxy c
      /\ precision_of Demo.rnd (TP c) (FP c) = ret precision
      /\ recall_of Demo.rnd (TP c) (FN c) = ret recall
      /\ f1_of Demo.rnd precision recall = ret f1_score
      /\ (0 <= num_value precision <= 1)%Q
      /\ (0 <= num_value recall <= 1)%Q
      /\ (0 <= num_value f1_score <= 1)%Q.
Proof.
  split; [exact Qred_rounding |].
  split; [reflexivity |]. split; [reflexivity |].
  exact (cells_nonneg_metrics_bounded Demo.rnd Demo.rule_match globals0
           ["1.2.3.4"] ["Acme"] 0 "1.2.3.4" "Acme" ["via-acme"] ["direct"]
           Demo.sample_rows Qred_rounding eq_refl eq_refl).
Defined.

Lemma metrics_exact_witness :
  0 <= TP (mkCounters 5 2 2 2 1 1)
  /\ 0 <= FP (mkCounters 5 2 2 2 1 1)
  /\ 0 <= FN (mkCounters 5 2 2 2 1 1)
  /\ exists precision recall f1_score : num,
      precision_of Demo.rnd 1 1 = ret precision
      /\ recall_of Demo.rnd 1 1 = ret recall
      /\ f1_of Demo.rnd precision recall = ret f1_score
      /\ precision = NFloat (1 # 2)
      /\ recall = NFloat (1 # 2)
      /\ f1_score = NFloat (1 # 2).
Proof.
  assert (H0 : 0 <= 1) by discriminate.
  split; [exact H0 |]. split; [exact H0 |]. split; [exact H0 |].
  destruct (metrics_exact Demo.rnd (mkCounters 5 2 2 2 1 1) H0 H0 H0)
    as (p & r & f & Hp & Hr & Hf & Hp1 & _ & Hr1 & _ & _ & _ & _ & HF).
  exists p, r, f.
  split; [exact Hp |]. split; [exact Hr |]. split; [exact Hf |].
  split; [exact (Hp1 eq_refl) |]. split; [exact (Hr1 eq_refl) |].
  exact (proj1 (HF (or_introl eq_refl)) eq_refl).
Defined.

Lemma proxy_filter_selects_witness :
  specific_proxy (mkGlobals false None (Some "aCmE")) = Some "aCmE"
  /\ "aCmE" <> ""
  /\ Demo.scan_sqlite_database (mkGlobals false None (Some "aCmE"))
                               "all.db" "two.yaml"
     = scan_sqlite_database Demo.rnd Demo.yara_compile Demo.rule_match Demo.str_lower
         (fun f =>
            filter (fun e => String.eqb (Demo.str_lower (proxy e))
                                        (Demo.str_lower "aCmE"))
                   (Demo.load_proxies f))
         Demo.open_store (mkGlobals false None None) "all.db" "two.yaml".
Proof.
  assert (Hne : "aCmE" <> "") by discriminate.
  split; [reflexivity |]. split; [exact Hne |].
  exact (proj2 (proj2 (proxy_filter_selects Demo.rnd Demo.yara_compile Demo.rule_match
                         Demo.str_lower Demo.load_proxies Demo.open_store
                         (mkGlobals false None (Some "aCmE")) "aCmE"
                         eq_refl Hne))
               "all.db" "two.yaml").
Defined.

Lemma flags_are_observational_witness :
  specific_proxy globals0 = specific_proxy (mkGlobals true (Some "FP") None)
  /\ summary (trace_of (Demo.scan_sqlite_database globals0 "all.db" "two.yaml"))
     = summary (trace_of (Demo.scan_sqlite_database
                            (mkGlobals true (Some "FP") None)
                            "all.db" "two.yaml")).
Proof.
  split; [reflexivity |].
  exact (proj1 (flags_are_observational Demo.rnd Demo.yara_compile Demo.rule_match
                  Demo.str_lower Demo.load_proxies Demo.open_store
                  globals0 (mkGlobals true (Some "FP") None)
                  "all.db" "two.yaml" eq_refl)).
Defined.

Lemma missing_arguments_usage_witness :
  (List.length ["prog"; "all.db"] < 3)%nat
  /\ Demo.main ["prog"; "all.db"] = ([Print LUsage], Exit 1).
Proof.
  split; [apply le_n |].
  exact (missing_arguments_usage Demo.rnd Demo.yara_compile Demo.rule_match
           Demo.str_lower Demo.str_upper Demo.load_proxies Demo.open_store
           ["prog"; "all.db"] (le_n 3)).
Defined.

Lemma empty_store_division_by_zero_witness :
  Demo.open_store "empty.db" = StoreRows []
  /\ Demo.load_proxies "two.yaml" = [Demo.acme] ++ Demo.bolt :: []
  /\ (forall s, In s [Demo.acme] ->
        selected Demo.str_lower (mkGlobals false None (Some "bolt")) s = false)
  /\ selected Demo.str_lower (mkGlobals false None (Some "bolt")) Demo.bolt = true
  /\ (forall p, In p (should_be_true (yara_ruleset Demo.bolt)
                      ++ get_should_be_false (yara_ruleset Demo.bolt)) ->
        failed (Demo.yara_compile p) = false)
  /\ result_of (Demo.scan_sqlite_database (mkGlobals false None (Some "bolt"))
                                          "empty.db" "two.yaml")
     = Raise ZeroDivisionError.
Proof.
  assert (Hskip : forall s, In s [Demo.acme] ->
             selected Demo.str_lower (mkGlobals false None (Some "bolt")) s
             = false).
  { intros s [<- | []]. reflexivity. }
  assert (Hok : forall p, In p (should_be_true (yara_ruleset Demo.bolt)
                                ++ get_should_be_false (yara_ruleset Demo.bolt)) ->
             failed (Demo.yara_compile p) = false).
  { intros p [<- | []]. reflexivity. }
  split; [reflexivity |]. split; [reflexivity |]. split; [exact Hskip |].
  split; [reflexivity |]. split; [exact Hok |].
  exact (proj1 (empty_store_division_by_zero Demo.rnd Demo.yara_compile Demo.rule_match
                  Demo.str_lower Demo.load_proxies Demo.open_store
                  (mkGlobals false None (Some "bolt")) "empty.db" "two.yaml"
                  [Demo.acme] Demo.bolt [] eq_refl eq_refl Hskip eq_refl Hok)).
Defined.

(** ** Scenarios *)

(** One identity, one record from its address whose payload matches only
    the positive literal: TP = 1, the other cells 0, all three metrics 1. *)
Example scenario_true_positive :
  Demo.main ["prog"; "one.db"; "one.yaml"]
  = ([ Print (LParsingRuleset "Acme");
       Print (LLoading "via-acme"); YaraCompile "via-acme";
       Print (LLoading "direct"); YaraCompile "direct";
       YaraMatch "GET / via-acme"; YaraMatch "GET / via-acme";
       Print (LTotal 1); Print LConfusionMatrix;
       Print (LCell "True Positive (TP)" 1 (NFloat 100));
       Print (LCell "False Positive (FP)" 0 (NFloat 0));
       Print (LCell "True Negative (TN)" 0 (NFloat 0));
       Print (LCell "False Negative (FN)" 0 (NFloat 0));
       Print LBlank;
       Print (LPrecision (NFloat 1)); Print (LRecall (NFloat 1));
       Print (LF1 (NFloat 1));
       Print LBlank ],
     Done tt).
Proof. reflexivity. Qed.

(** The same identity, one record from another address with a matching
    payload, run with [-v] and [flag=fp]: FP = 1, precision is the float 0,
    recall and F1 are the integer 0 of the zero-denominator case. *)
Example scenario_false_positive :
  Demo.main ["prog"; "fp.db"; "one.yaml"; "-v"; "flag=fp"]
  = ([ Print LSettingVerbose;
       Print (LParsingRuleset "Acme");
       Print (LLoading "via-acme"); YaraCompile "via-acme";
       Print (LLoading "direct"); YaraCompile "direct";
       YaraMatch "GET / via-acme"; YaraMatch "GET / via-acme";
       Print (LFailNotFromProxy "a" "Acme" "GET / via-acme");
       Print (LList "FP" "a" "GET / via-acme" "Acme");
       Print (LTotal 1); Print LConfusionMatrix;
       Print (LCell "True Positive (TP)" 0 (NFloat 0));
       Print (LCell "False Positive (FP)" 1 (NFloat 100));
       Print (LCell "True Negative (TN)" 0 (NFloat 0));
       Print (LCell "False Negative (FN)" 0 (NFloat 0));
       Print LBlank;
       Print (LPrecision (NFloat 0)); Print (LRecall (NInt 0));
       Print (LF1 (NInt 0));
       Print LBlank ],
     Done tt).
Proof. reflexivity. Qed.

(** A payload that matches both literals is negative: the third row of
    [Demo.sample_rows], from the address of the identity, is a false negative. *)
Example scenario_negative_wins :
  cell_of Demo.rule_match ["via-acme"] ["direct"] "1.2.3.4"
          (mkRow 3 "c" (Some "GET / via-acme direct") "1.2.3.4")
  = Some CellFN.
Proof. reflexivity. Qed.

(** [proxy=ACME] evaluates the identity "Acme" alone. *)
Example scenario_proxy_filter :
  Demo.main ["prog"; "all.db"; "two.yaml"; "proxy=ACME"]
  = Demo.main ["prog"; "all.db"; "one.yaml"].
Proof. reflexivity. Qed.

(** An empty store: the report of the first identity divides by zero. *)
Example scenario_empty_store :
  Demo.main ["prog"; "empty.db"; "two.yaml"]
  = ([ Print (LParsingRuleset "Acme");
       Print (LLoading "via-acme"); YaraCompile "via-acme";
       Print (LLoading "direct"); YaraCompile "direct";
       Print (LTotal 0); Print LConfusionMatrix ],
     Raise ZeroDivisionError).
Proof. reflexivity. Qed.

(** A store that cannot be read: the diagnostic and exit status 1. *)
Example scenario_store_error :
  Demo.main ["prog"; "missing.db"; "two.yaml"]
  = ([Print (LSQLiteError "no such table: ssl_logs")], Exit 1).
Proof. reflexivity. Qed.

(** * Further properties of the script *)

(** ** parse_config *)

(** X1. [parse_config] returns three lists as long as the list of entries, and
    position [k] of each holds the address, the name and the ruleset of
    entry [k]: the lists are parallel and in configuration order. *)
Theorem parse_config_parallel (load_proxies : string -> list ProxyEntry)
    (config_file : string) :
  let '(ips, proxies, rules) := parse_config load_proxies config_file in
  List.length ips = List.length (load_proxies config_file)
  /\ List.length proxies = List.length (load_proxies config_file)
  /\ List.length rules = List.length (load_proxies config_file)
  /\ forall k e,
      nth_error (load_proxies config_file) k = Some e ->
      nth_error ips k = Some (ip e)
      /\ nth_error proxies k = Some (proxy e)
      /\ nth_error rules k = Some (yara_ruleset e).
Proof.
  rewrite parse_config_eq. rewrite !length_map.
  split; [reflexivity |]. split; [reflexivity |]. split; [reflexivity |].
  intros k e Hk. rewrite !nth_error_map, Hk. now repeat split.
Qed.

(** ** scan_text *)

(** X2. [scan_text] calls the engine once per rule, in order, on the same text,
    and returns the matches of the rules concatenated in rule order; a scan
    over two lists of rules put together is the scan of the first followed
    by the scan of the second. *)
Theorem scan_text_in_rule_order {rule ymatch : Type}
    (rule_match : rule -> string -> list ymatch)
    (rules1 rules2 : list rule) (text : string) :
  scan_text rule_match (rules1 ++ rules2) text
  = (m1 <- scan_text rule_match rules1 text ;;
     m2 <- scan_text rule_match rules2 text ;;
     ret (m1 ++ m2))
  /\ trace_of (scan_text rule_match rules1 text)
     = map (fun _ => YaraMatch text) rules1
  /\ result_of (scan_text rule_match rules1 text)
     = Done (flat_map (fun r => rule_match r text) rules1).
Proof.
  rewrite !scan_text_eq. split; [| now split].
  rewrite !bind_done. cbn [fst snd ret].
  unfold scan_events, matches_of.
  now rewrite map_app, flat_map_app, app_nil_r.
Qed.

(** ** load_yara_rules *)

Lemma load_loop_ok (rule : Type) (yara_compile : string -> compiled rule)
    (paths : list string) (acc : list rule) :
  (forall p, In p paths -> failed (yara_compile p) = false) ->
  exists rules,
    load_loop yara_compile paths acc
    = (flat_map loading paths, Done (acc ++ rules))
    /\ Forall2 (fun p r => yara_compile p = Compiled r) paths rules.
Proof.
  revert acc. induction paths as [| q paths IH]; intros acc Hok.
  - exists []. split; [cbn; now rewrite app_nil_r | constructor].
  - cbn [load_loop flat_map]. rewrite !bind_done. cbn [fst snd app loading].
    pose proof (Hok q (or_introl eq_refl)) as Hq.
    destruct (yara_compile q) as [r | e | e] eqn:E; try discriminate.
    destruct (IH (acc ++ [r])) as (rules & Eq & HF).
    { intros p Hp. apply Hok. now right. }
    exists (r :: rules). split.
    + rewrite Eq, <- app_assoc. reflexivity.
    + now constructor.
Qed.

(** X3. When every file of the list compiles, [load_yara_rules] returns one
    compiled rule per file, in the order of the files, after printing the
    loading line of each file and compiling it once. *)
Theorem load_yara_rules_in_order {rule : Type}
    (yara_compile : string -> compiled rule) (paths : list string) :
  (forall p, In p paths -> failed (yara_compile p) = false) ->
  exists rules,
    load_yara_rules yara_compile paths = (flat_map loading paths, Done rules)
    /\ Forall2 (fun p r => yara_compile p = Compiled r) paths rules
    /\ List.length rules = List.length paths.
Proof.
  intro Hok. destruct (load_loop_ok rule yara_compile paths [] Hok)
    as (rules & E & HF).
  exists rules. split; [exact E |]. split; [exact HF |].
  symmetry. exact (Forall2_length HF).
Qed.

(** X4. [load_yara_rules] stops at the first file that does not compile: the
    files before it are loaded, its diagnostic is printed, the exit status
    is 1, and the files after it are neither announced nor compiled. *)
Theorem load_yara_rules_first_failure {rule : Type}
    (yara_compile : string -> compiled rule)
    (before : list string) (p : string) (after : list string) :
  (forall q, In q before -> failed (yara_compile q) = false) ->
  failed (yara_compile p) = true ->
  load_yara_rules yara_compile (before ++ p :: after)
  = (flat_map loading before
     ++ Print (LLoading p) :: diagnostic yara_compile p,
     Exit 1)
  /\ load_yara_rules yara_compile (before ++ p :: after)
     = load_yara_rules yara_compile (before ++ [p]).
Proof.
  intros Hok Hp.
  assert (H : forall after' acc,
             load_loop yara_compile (before ++ p :: after') acc
             = (flat_map loading before
                ++ Print (LLoading p) :: diagnostic yara_compile p,
                Exit 1)).
  { intros after'. induction before as [| q before IH]; intro acc.
    - cbn [app load_loop flat_map]. rewrite !bind_done. cbn [fst snd app].
      unfold diagnostic.
      destruct (yara_compile p) as [r | e | e]; [discriminate | |]; reflexivity.
    - cbn [app load_loop flat_map]. rewrite !bind_done. cbn [fst snd app loading].
      pose proof (Hok q (or_introl eq_refl)) as Hq.
      destruct (yara_compile q) as [r | e | e]; try discriminate.
      rewrite IH; [reflexivity |]. intros q' Hq'. apply Hok. now right. }
  unfold load_yara_rules. split; [apply H |]. now rewrite !H.
Qed.

(** ** scan_sqlite_database: a store that cannot be read *)

(** X5. When the store raises an [sqlite3.Error], the run prints the SQLite
    diagnostic and exits with status 1; no ruleset header is printed and no
    rule file is compiled, whatever the configuration and the globals. *)
Theorem store_error_exits {rule ymatch : Type} (rnd : Q -> Q)
    (yara_compile : string -> compiled rule)
    (rule_match : rule -> string -> list ymatch)
    (str_lower : string -> string)
    (load_proxies : string -> list ProxyEntry) (open_store : string -> Store)
    (g : Globals) (db_path config_file e : string) :
  open_store db_path = StoreError e ->
  scan_sqlite_database rnd yara_compile rule_match str_lower
                       load_proxies open_store g db_path config_file
  = ([Print (LSQLiteError e)], Exit 1).
Proof.
  intro Hs. rewrite scan_entries, Hs. reflexivity.
Qed.

(** ** The command-line options (lines 142-149) *)

Lemma prefix_split (p s : string) :
  String.prefix p s = true -> exists v, s = (p ++ v)%string.
Proof.
  revert s. induction p as [| a p IH]; intros s H.
  - now exists s.
  - destruct s as [| b s]; [discriminate |]. cbn [String.prefix] in H.
    destruct (ascii_dec a b) as [-> | _]; [| discriminate].
    destruct (IH s H) as (v & ->). now exists v.
Qed.

Lemma prefix_app (p v : string) : String.prefix p (p ++ v) = true.
Proof.
  induction p as [| a p IH]; [now destruct v |].
  cbn [append String.prefix]. now destruct (ascii_dec a a).
Qed.

Lemma split_eq_first (s : string) :
  exists t, split_eq s = first_piece s :: t.
Proof.
  induction s as [| c s (t & E)]; [now exists [] |].
  cbn [split_eq first_piece].
  destruct (Ascii.eqb c "="%char); [now exists (split_eq s) |].
  rewrite E. now exists t.
Qed.

Lemma split_flag_value (v : string) :
  nth_error (split_eq ("flag=" ++ v)) 1 = Some (first_piece v).
Proof. destruct (split_eq_first v) as (t & E). cbn. now rewrite E. Qed.

Lemma split_proxy_value (v : string) :
  nth_error (split_eq ("proxy=" ++ v)) 1 = Some (first_piece v).
Proof. destruct (split_eq_first v) as (t & E). cbn. now rewrite E. Qed.

(** X6. The value of [flag=] and of [proxy=] is the text between the first
    "=" and the next one: a later "=" and what follows it are dropped,
    and a value without "=" is taken whole.  The flag is uppercased, the
    proxy name is kept as typed. *)
Theorem option_value_ends_at_next_eq (str_upper : string -> string)
    (g : Globals) (v w : string) :
  parse_arg str_upper g ("flag=" ++ v)
  = ret (mkGlobals (verbose g) (Some (str_upper (first_piece v)))
                   (specific_proxy g))
  /\ parse_arg str_upper g ("proxy=" ++ v)
     = ret (mkGlobals (verbose g) (list_flag g) (Some (first_piece v)))
  /\ first_piece (v ++ String "="%char w) = first_piece v
  /\ ((forall c, In c (list_ascii_of_string v) -> c <> "="%char) ->
      first_piece v = v).
Proof.
  split; [| split; [| split]].
  - unfold parse_arg.
    replace (String.eqb ("flag=" ++ v) "-v") with false by reflexivity.
    rewrite (prefix_app "flag=" v).
    now rewrite (index_some _ _ _ (split_flag_value v)), bind_ret_l.
  - unfold parse_arg.
    replace (String.eqb ("proxy=" ++ v) "-v") with false by reflexivity.
    replace (String.prefix "flag=" ("proxy=" ++ v)) with false by reflexivity.
    rewrite (prefix_app "proxy=" v).
    now rewrite (index_some _ _ _ (split_proxy_value v)), bind_ret_l.
  - induction v as [| c v IH]; cbn [append first_piece].
    + reflexivity.
    + destruct (Ascii.eqb c "="%char); [reflexivity | now rewrite IH].
  - induction v as [| c v IH]; intro Hno; [reflexivity |].
    cbn [first_piece].
    destruct (Ascii.eqb c "="%char) eqn:E.
    + apply Ascii.eqb_eq in E. exfalso. apply (Hno c); [now left | exact E].
    + rewrite IH; [reflexivity |]. intros c' Hc'. apply Hno. now right.
Qed.

Lemma parse_arg_done (str_upper : string -> string) (g : Globals) (arg : string) :
  exists g',
    parse_arg str_upper g arg
    = ((if String.eqb arg "-v" then [Print LSettingVerbose] else []), Done g')
    /\ verbose g' = verbose g || String.eqb arg "-v".
Proof.
  unfold parse_arg. destruct (String.eqb arg "-v").
  - eexists. split; [reflexivity |]. now rewrite orb_true_r.
  - destruct (String.prefix "flag=" arg) eqn:Ef.
    + destruct (prefix_split _ _ Ef) as (v & ->).
      rewrite (index_some _ _ _ (split_flag_value v)), bind_ret_l.
      eexists. split; [reflexivity |]. cbn. now rewrite orb_false_r.
    + destruct (String.prefix "proxy=" arg) eqn:Ep.
      * destruct (prefix_split _ _ Ep) as (v & ->).
        rewrite (index_some _ _ _ (split_proxy_value v)), bind_ret_l.
        eexists. split; [reflexivity |]. cbn. now rewrite orb_false_r.
      * exists g. split; [reflexivity |]. now rewrite orb_false_r.
Qed.

Lemma args_loop_done (str_upper : string -> string)
    (args : list string) (g : Globals) :
  exists g',
    args_loop str_upper args g
    = (map (fun _ => Print LSettingVerbose)
           (filter (fun arg => String.eqb arg "-v") args),
       Done g')
    /\ verbose g' = verbose g || existsb (fun arg => String.eqb arg "-v") args.
Proof.
  revert g. induction args as [| arg args IH]; intro g.
  - exists g. split; [reflexivity |]. now rewrite orb_false_r.
  - cbn [args_loop filter existsb].
    destruct (parse_arg_done str_upper g arg) as (g1 & E1 & V1).
    destruct (IH g1) as (g' & E & V).
    exists g'. rewrite E1, bind_done, E. cbn [fst snd]. split.
    + now destruct (String.eqb arg "-v").
    + now rewrite V, V1, orb_assoc.
Qed.

(** X7. Reading the options never fails, whatever the arguments: no
    [IndexError] from [split("=")[1]], no exit.  It prints one
    "setting verbose" line per [-v] and nothing else, and the run is
    verbose exactly when some argument is [-v]. *)
Theorem options_never_fail (str_upper : string -> string)
    (args : list string) :
  exists g,
    args_loop str_upper args globals0
    = (map (fun _ => Print LSettingVerbose)
           (filter (fun arg => String.eqb arg "-v") args),
       Done g)
    /\ verbose g = existsb (fun arg => String.eqb arg "-v") args.
Proof. exact (args_loop_done str_upper args globals0). Qed.

(** ** The proxy filter with an empty value *)

Lemma filter_all {A} (f : A -> bool) (l : list A) :
  (forall a, f a = true) -> filter f l = l.
Proof.
  intro H. induction l as [| a l IH]; [reflexivity |].
  cbn [filter]. now rewrite H, IH.
Qed.

(** X9. An empty filter value, as [proxy=] gives, filters nothing: the run is
    the run without filter, every identity is evaluated. *)
Theorem empty_filter_selects_all {rule ymatch : Type} (rnd : Q -> Q)
    (yara_compile : string -> compiled rule)
    (rule_match : rule -> string -> list ymatch)
    (str_lower : string -> string)
    (load_proxies : string -> list ProxyEntry) (open_store : string -> Store)
    (g : Globals) (db_path config_file : string) :
  specific_proxy g = Some "" ->
  scan_sqlite_database rnd yara_compile rule_match str_lower
                       load_proxies open_store g db_path config_file
  = scan_sqlite_database rnd yara_compile rule_match str_lower
                         load_proxies open_store
                         (mkGlobals (verbose g) (list_flag g) None)
                         db_path config_file.
Proof.
  intro Hsp. rewrite !scan_entries. f_equal. apply bind_ext; intro rows.
  rewrite (entries_loop_filter rnd yara_compile rule_match str_lower g
             (mkGlobals (verbose g) (list_flag g) None) rows
             (load_proxies config_file) eq_refl eq_refl eq_refl).
  rewrite filter_all; [reflexivity |].
  intro e. unfold selected. now rewrite Hsp.
Qed.

(** ** How a run can end *)

Lemma ends_well_bind {A B} (m : M A) (f : A -> M B) :
  ends_well m -> (forall a, ends_well (f a)) -> ends_well (bind m f).
Proof.
  destruct m as [t [a | c | e]]; intros Hm Hf; [| exact Hm ..].
  rewrite bind_done. exact (Hf a).
Qed.

Lemma ends_without_error_bind {A B} (m : M A) (f : A -> M B) :
  ends_without_error m -> (forall a, snd m = Done a -> ends_without_error (f a)) ->
  ends_without_error (bind m f).
Proof.
  destruct m as [t [a | c | e]]; intros Hm Hf; [| exact Hm ..].
  rewrite bind_done. exact (Hf a eq_refl).
Qed.

Lemma load_ends {rule : Type} (yara_compile : string -> compiled rule)
    (paths : list string) (acc : list rule) :
  ends_without_error (load_loop yara_compile paths acc).
Proof.
  revert acc. induction paths as [| p paths IH]; intro acc; [exact I |].
  cbn [load_loop]. rewrite !bind_done. cbn [fst snd].
  destruct (yara_compile p); [apply IH | reflexivity ..].
Qed.

Lemma ends_without_error_well {A} (m : M A) : ends_without_error m -> ends_well m.
Proof. unfold ends_without_error, ends_well. now destruct (snd m). Qed.

Section EndFacts.

Context {rule ymatch : Type}.
Variable rnd : Q -> Q.
Variable yara_compile : string -> compiled rule.
Variable rule_match : rule -> string -> list ymatch.
Variable str_lower : string -> string.

Lemma report_ends_well (c : Counters) : ends_well (report rnd c).
Proof.
  destruct (Z.eq_dec (total c) 0) as [Hz | Hnz].
  - now rewrite (report_zero rnd c Hz).
  - now rewrite (report_ok rnd c Hnz).
Qed.

Lemma pass_body_ends_well (g : Globals) (rows : list Row) (e : ProxyEntry) :
  ends_well (pass_body rnd yara_compile rule_match g rows e).
Proof.
  unfold pass_body.
  apply ends_well_bind; [exact I | intros _].
  apply ends_well_bind; [apply ends_without_error_well, load_ends | intro rt].
  apply ends_well_bind; [apply ends_without_error_well, load_ends | intro rf].
  apply ends_well_bind; [| intro c; apply report_ends_well].
  now rewrite (row_loop_eq rule_match g [ip e] [proxy e] 0 (ip e) (proxy e)).
Qed.

Lemma entries_loop_ends_well (g : Globals) (rows : list Row)
    (es : list ProxyEntry) :
  ends_well (entries_loop rnd yara_compile rule_match str_lower g rows es).
Proof.
  induction es as [| e es IH]; [exact I |].
  cbn [entries_loop]. destruct (selected str_lower g e); [| exact IH].
  apply ends_well_bind; [apply pass_body_ends_well | intros _; exact IH].
Qed.

Lemma pass_body_ends_without_error (g : Globals) (rows : list Row)
    (e : ProxyEntry) :
  rows <> [] ->
  ends_without_error (pass_body rnd yara_compile rule_match g rows e).
Proof.
  intro Hrows. unfold pass_body.
  apply ends_without_error_bind; [exact I | intros _ _].
  apply ends_without_error_bind; [apply load_ends | intros rt _].
  apply ends_without_error_bind; [apply load_ends | intros rf _].
  rewrite (row_loop_eq rule_match g [ip e] [proxy e] 0 (ip e) (proxy e))
    by reflexivity.
  apply ends_without_error_bind; [exact I |].
  intros c Hc. cbn [snd] in Hc. injection Hc as <-.
  rewrite report_ok; [exact I |].
  rewrite fold_total. change (total counters0) with 0.
  destruct rows; [congruence | cbn [List.length]; lia].
Qed.

Lemma entries_loop_ends_without_error (g : Globals) (rows : list Row)
    (es : list ProxyEntry) :
  rows <> [] ->
  ends_without_error
    (entries_loop rnd yara_compile rule_match str_lower g rows es).
Proof.
  intro Hrows. induction es as [| e es IH]; [exact I |].
  cbn [entries_loop]. destruct (selected str_lower g e); [| exact IH].
  apply ends_without_error_bind;
    [now apply pass_body_ends_without_error | intros _ _; exact IH].
Qed.

Lemma scan_ends_well (load_proxies : string -> list ProxyEntry)
    (open_store : string -> Store) (g : Globals) (db_path config_file : string) :
  ends_well (scan_sqlite_database rnd yara_compile rule_match str_lower
               load_proxies open_store g db_path config_file).
Proof.
  rewrite scan_entries. destruct (open_store db_path) as [rows | e];
    [| reflexivity].
  cbn [fetchall]. rewrite bind_ret_l.
  pose proof (entries_loop_ends_well g rows (load_proxies config_file)) as H.
  destruct (entries_loop _ _ _ _ _ _ _) as [t [a | c | [| | e]]];
    cbn in H |- *; congruence.
Qed.

End EndFacts.

(** X10. No run of the script ends with an [IndexError]: the indices into
    [sys.argv], into [split("=")] and into the parallel lists [ips] and
    [proxies] of the ruleset loop are always in range.  No [sqlite3.Error]
    escapes the handler, and whenever the script exits it is with status
    1. *)
Theorem indices_in_range_exit_status_one {rule ymatch : Type} (rnd : Q -> Q)
    (yara_compile : string -> compiled rule)
    (rule_match : rule -> string -> list ymatch)
    (str_lower str_upper : string -> string)
    (load_proxies : string -> list ProxyEntry) (open_store : string -> Store)
    (argv : list string) :
  let run := main rnd yara_compile rule_match str_lower str_upper
                  load_proxies open_store argv in
  result_of run <> Raise IndexError
  /\ (forall e, result_of run <> Raise (SQLiteError e))
  /\ (forall code, result_of run = Exit code -> code = 1).
Proof.
  intro run.
  assert (H : ends_well run).
  { unfold run, main.
    destruct argv as [| a0 [| a1 [| a2 rest]]]; try exact eq_refl.
    cbn [List.length]. destruct (Z.of_nat _ <? 3); [exact eq_refl |].
    cbn [index nth_error skipn]. rewrite !bind_ret_l.
    destruct (args_loop_done str_upper rest globals0) as (g & E & _).
    rewrite E, bind_done. cbn [fst snd].
    exact (scan_ends_well rnd yara_compile rule_match str_lower
             load_proxies open_store g a1 a2). }
  unfold ends_well, result_of in *.
  destruct (snd run) as [[] | c | e]; subst.
  - repeat split; discriminate.
  - repeat split; try discriminate. intros code [= <-]. reflexivity.
  - repeat split; discriminate.
Qed.

(** X11. With at least one row in the store the report never divides by
    zero: the run does not end with a [ZeroDivisionError]. *)
Theorem rows_prevent_division_by_zero {rule ymatch : Type} (rnd : Q -> Q)
    (yara_compile : string -> compiled rule)
    (rule_match : rule -> string -> list ymatch)
    (str_lower : string -> string)
    (load_proxies : string -> list ProxyEntry) (open_store : string -> Store)
    (g : Globals) (db_path config_file : string) (rows : list Row) :
  let run := scan_sqlite_database rnd yara_compile rule_match str_lower
               load_proxies open_store g db_path config_file in
  open_store db_path = StoreRows rows ->
  rows <> [] ->
  result_of run <> Raise ZeroDivisionError.
Proof.
  intros run Hs Hrows. unfold run. rewrite scan_entries, Hs.
  cbn [fetchall]. rewrite bind_ret_l.
  pose proof (entries_loop_ends_without_error rnd yara_compile rule_match
                str_lower g rows (load_proxies config_file) Hrows) as H.
  unfold ends_without_error, result_of in *.
  destruct (entries_loop _ _ _ _ _ _ _) as [t [[] | c | e]];
    cbn in H |- *; [discriminate | discriminate | contradiction].
Qed.

(** ** Identities are evaluated independently *)

Lemma entries_loop_app {rule ymatch : Type} (rnd : Q -> Q)
    (yara_compile : string -> compiled rule)
    (rule_match : rule -> string -> list ymatch)
    (str_lower : string -> string) (g : Globals) (rows : list Row)
    (es1 es2 : list ProxyEntry) :
  entries_loop rnd yara_compile rule_match str_lower g rows (es1 ++ es2)
  = (entries_loop rnd yara_compile rule_match str_lower g rows es1 ;;;
     entries_loop rnd yara_compile rule_match str_lower g rows es2).
Proof.
  induction es1 as [| e es1 IH]; cbn [app entries_loop].
  - now rewrite bind_ret_l.
  - destruct (selected str_lower g e); [| exact IH].
    now rewrite bind_assoc, IH.
Qed.

(** X12. The ruleset loop over a configuration made of two parts is the loop
    over the first part followed by the loop over the second: the pass of
    an identity depends neither on its position in the configuration nor on
    the identities around it (its counters start at zero, its address and
    name are its own).  The second part runs only if the first ended
    normally. *)
Theorem ruleset_loop_splits {rule ymatch : Type} (rnd : Q -> Q)
    (yara_compile : string -> compiled rule)
    (rule_match : rule -> string -> list ymatch)
    (str_lower : string -> string) (g : Globals) (rows : list Row)
    (es1 es2 : list ProxyEntry) :
  ruleset_loop rnd yara_compile rule_match str_lower g
               (map ip (es1 ++ es2)) (map proxy (es1 ++ es2)) rows 0
               (map yara_ruleset (es1 ++ es2))
  = (ruleset_loop rnd yara_compile rule_match str_lower g
                  (map ip es1) (map proxy es1) rows 0 (map yara_ruleset es1) ;;;
     ruleset_loop rnd yara_compile rule_match str_lower g
                  (map ip es2) (map proxy es2) rows 0 (map yara_ruleset es2)).
Proof.
  pose proof (fun es => ruleset_loop_entries rnd yara_compile rule_match
                          str_lower g rows [] es) as H.
  cbn [app List.length] in H. rewrite !H.
  apply entries_loop_app.
Qed.

(** ** What a pass counts and prints *)

Lemma count_events_app (f : event -> bool) (a b : list event) :
  count_events f (a ++ b) = count_events f a + count_events f b.
Proof. unfold count_events. rewrite filter_app, length_app. lia. Qed.

Lemma count_events_none (f : event -> bool) (t : list event) :
  (forall e, In e t -> f e = false) -> count_events f t = 0.
Proof.
  intro H. unfold count_events. induction t as [| e t IH]; [reflexivity |].
  cbn [filter]. rewrite (H e (or_introl eq_refl)).
  apply IH. intros e' He'. apply H. now right.
Qed.

Lemma count_match_scan {rule : Type} (rules : list rule) (text : string) :
  count_events match_call (scan_events rules text)
  = Z.of_nat (List.length rules).
Proof.
  unfold count_events, scan_events.
  induction rules as [| r rules IH]; [reflexivity |].
  cbn [map filter match_call List.length]. lia.
Qed.

Lemma count_other_scan {rule : Type} (f : event -> bool) (rules : list rule)
    (text : string) :
  f (YaraMatch text) = false -> count_events f (scan_events rules text) = 0.
Proof.
  intro H. apply count_events_none. intros e He.
  apply in_map_iff in He. now destruct He as (_ & <- & _).
Qed.

Section PrintFacts.

Context {rule ymatch : Type}.
Variable rule_match : rule -> string -> list ymatch.
Variable g : Globals.
Variables truth name : string.
Variables rules_true rules_false : list rule.

Local Abbreviation events := (row_events rule_match g name truth rules_true rules_false).
Local Abbreviation inside := (in_cell rule_match rules_true rules_false truth).
Local Abbreviation counted := (count_cell rule_match rules_true rules_false truth).

Lemma count_list_line (f : event -> bool) (k : cell) (id h : string) :
  (forall a b c d, f (Print (LList a b c d)) = false) ->
  count_events f (list_line g k id name h) = 0.
Proof.
  intro H. unfold list_line. destruct (list_flag g) as [fl |]; [| reflexivity].
  destruct (String.eqb fl (cell_flag k)); [| reflexivity].
  unfold count_events. cbn [filter]. now rewrite H.
Qed.

Lemma count_verbose_line (f : event -> bool) (k : cell) (id h : string) :
  (forall a b c, f (Print (LSuccess a b c)) = false) ->
  (forall a b c, f (Print (LFailNotFromProxy a b c)) = false) ->
  (forall a b c, f (Print (LFailFromProxy a b c)) = false) ->
  count_events f (if verbose g then verbose_line k id name h else []) = 0.
Proof.
  intros H1 H2 H3. destruct (verbose g); [| reflexivity].
  destruct k; unfold count_events; cbn [verbose_line filter];
    now rewrite ?H1, ?H2, ?H3.
Qed.

Lemma row_match_calls (row : Row) :
  count_events match_call (events row)
  = if no_payload row then 0
    else Z.of_nat (List.length rules_true + List.length rules_false).
Proof.
  unfold row_events, no_payload. destruct (payload row) as [h |]; [| reflexivity].
  rewrite !count_events_app, !count_match_scan.
  rewrite count_verbose_line, count_list_line by reflexivity. lia.
Qed.

Lemma row_verbose_lines (row : Row) :
  count_events verbose_event (events row)
  = if verbose g
    then (if inside CellTP row then 1 else 0)
         + (if inside CellFP row then 1 else 0)
         + (if inside CellFN row then 1 else 0)
    else 0.
Proof.
  unfold row_events, in_cell, cell_of.
  destruct (payload row) as [h |]; [| now destruct (verbose g)].
  rewrite !count_events_app, !count_other_scan by reflexivity.
  rewrite count_list_line by reflexivity.
  destruct (verbose g); [| reflexivity].
  now destruct (cell_table _ _).
Qed.

Lemma row_list_lines (row : Row) :
  count_events list_event (events row)
  = match list_flag g, cell_of rule_match rules_true rules_false truth row with
    | Some f, Some k => if String.eqb f (cell_flag k) then 1 else 0
    | _, _ => 0
    end.
Proof.
  unfold row_events, cell_of.
  destruct (payload row) as [h |]; [| now destruct (list_flag g)].
  rewrite !count_events_app, !count_other_scan by reflexivity.
  rewrite count_verbose_line by reflexivity.
  unfold list_line. destruct (list_flag g) as [f |]; [| reflexivity].
  now destruct (String.eqb f _).
Qed.

Lemma pass_match_calls (rows : list Row) :
  count_events match_call (flat_map events rows)
  = Z.of_nat (List.length rules_true + List.length rules_false)
    * (Z.of_nat (List.length rows) - count_no_payload rows).
Proof.
  unfold count_no_payload. induction rows as [| row rows IH]; [cbn; lia |].
  cbn [flat_map]. rewrite count_events_app, row_match_calls, IH.
  rewrite length_filter_cons. cbn [List.length].
  destruct (no_payload row); lia.
Qed.

Lemma pass_verbose_lines (rows : list Row) :
  count_events verbose_event (flat_map events rows)
  = if verbose g
    then counted CellTP rows + counted CellFP rows + counted CellFN rows
    else 0.
Proof.
  unfold count_cell. induction rows as [| row rows IH];
    [now destruct (verbose g) |].
  cbn [flat_map]. rewrite count_events_app, row_verbose_lines, IH.
  rewrite !length_filter_cons. destruct (verbose g); lia.
Qed.

Lemma pass_list_lines_flag (k : cell) (rows : list Row) :
  list_flag g = Some (cell_flag k) ->
  count_events list_event (flat_map events rows) = counted k rows.
Proof.
  intro Hf. unfold count_cell. induction rows as [| row rows IH];
    [reflexivity |].
  cbn [flat_map]. rewrite count_events_app, row_list_lines, IH, Hf.
  rewrite length_filter_cons. unfold in_cell at 2.
  destruct (cell_of rule_match rules_true rules_false truth row) as [k' |];
    [| lia].
  now destruct k, k'.
Qed.

Lemma pass_list_lines_other (rows : list Row) :
  (forall k, list_flag g <> Some (cell_flag k)) ->
  count_events list_event (flat_map events rows) = 0.
Proof.
  intro Hf. induction rows as [| row rows IH]; [reflexivity |].
  cbn [flat_map]. rewrite count_events_app, row_list_lines, IH.
  destruct (list_flag g) as [f |]; [| reflexivity].
  destruct (cell_of rule_match rules_true rules_false truth row) as [k |];
    [| reflexivity].
  destruct (String.eqb f (cell_flag k)) eqn:E; [| reflexivity].
  apply String.eqb_eq in E. subst f. now destruct (Hf k).
Qed.

End PrintFacts.

(** X14. In the pass of an identity the engine is called on the payload of a
    record once for every positive rule and once for every negative rule,
    whatever the positive rules found (the negative set is scanned even
    when no positive rule matches), and never for a record without
    payload. *)
Theorem match_calls_of_a_pass {rule ymatch : Type}
    (rule_match : rule -> string -> list ymatch) (g : Globals)
    (ips proxies : list string) (i : nat) (truth name : string)
    (rules_true rules_false : list rule) (rows : list Row) :
  nth_error ips i = Some truth ->
  nth_error proxies i = Some name ->
  count_events match_call
    (trace_of (row_loop rule_match g ips proxies i rules_true rules_false
                        rows counters0))
  = Z.of_nat (List.length rules_true + List.length rules_false)
    * (Z.of_nat (List.length rows) - count_no_payload rows).
Proof.
  intros Hip Hname.
  rewrite (row_loop_eq rule_match g ips proxies i truth name Hip Hname).
  apply pass_match_calls.
Qed.

(** X15. Under [-v] a pass prints one line for every record counted as TP, FP
    or FN and none for a record counted as TN or without payload; without
    [-v] it prints none of these lines. *)
Theorem verbose_lines_of_a_pass {rule ymatch : Type}
    (rule_match : rule -> string -> list ymatch) (g : Globals)
    (ips proxies : list string) (i : nat) (truth name : string)
    (rules_true rules_false : list rule) (rows : list Row) :
  nth_error ips i = Some truth ->
  nth_error proxies i = Some name ->
  exists t c,
    row_loop rule_match g ips proxies i rules_true rules_false rows counters0
    = (t, Done c)
    /\ (verbose g = true ->
        count_events verbose_event t = TP c + FP c + FN c)
    /\ (verbose g = false -> count_events verbose_event t = 0).
Proof.
  intros Hip Hname.
  rewrite (row_loop_eq rule_match g ips proxies i truth name Hip Hname).
  eexists. eexists. split; [reflexivity |].
  rewrite pass_verbose_lines.
  pose proof (fun k => fold_cell rule_match rules_true rules_false truth k
                                 rows counters0) as F.
  pose proof (F CellTP) as FTP. pose proof (F CellFP) as FFP.
  pose proof (F CellFN) as FFN. cbn [cell_value] in FTP, FFP, FFN.
  change (TP counters0) with 0 in FTP. change (FP counters0) with 0 in FFP.
  change (FN counters0) with 0 in FFN.
  split; intros ->; [lia | reflexivity].
Qed.

(** X16. With [flag=] set to one of TP, FP, TN, FN a pass prints one list line
    for every record counted in that cell and for no other record; with any
    other flag value, or none, it prints no list line at all. *)
Theorem list_lines_of_a_pass {rule ymatch : Type}
    (rule_match : rule -> string -> list ymatch) (g : Globals)
    (ips proxies : list string) (i : nat) (truth name : string)
    (rules_true rules_false : list rule) (rows : list Row) :
  nth_error ips i = Some truth ->
  nth_error proxies i = Some name ->
  exists t c,
    row_loop rule_match g ips proxies i rules_true rules_false rows counters0
    = (t, Done c)
    /\ (list_flag g = Some "TP" -> count_events list_event t = TP c)
    /\ (list_flag g = Some "FP" -> count_events list_event t = FP c)
    /\ (list_flag g = Some "TN" -> count_events list_event t = TN c)
    /\ (list_flag g = Some "FN" -> count_events list_event t = FN c)
    /\ (list_flag g <> Some "TP" -> list_flag g <> Some "FP" ->
        list_flag g <> Some "TN" -> list_flag g <> Some "FN" ->
        count_events list_event t = 0).
Proof.
  intros Hip Hname.
  rewrite (row_loop_eq rule_match g ips proxies i truth name Hip Hname).
  eexists. eexists. split; [reflexivity |].
  pose proof (fun k => fold_cell rule_match rules_true rules_false truth k
                                 rows counters0) as F.
  pose proof (fun k => pass_list_lines_flag rule_match g truth name
                         rules_true rules_false k rows) as L.
  split; [| split; [| split; [| split]]].
  - intro Hf. rewrite (L CellTP Hf). specialize (F CellTP). cbn in F. lia.
  - intro Hf. rewrite (L CellFP Hf). specialize (F CellFP). cbn in F. lia.
  - intro Hf. rewrite (L CellTN Hf). specialize (F CellTN). cbn in F. lia.
  - intro Hf. rewrite (L CellFN Hf). specialize (F CellFN). cbn in F. lia.
  - intros H1 H2 H3 H4. apply pass_list_lines_other. now intros [].
Qed.

Section TruthFacts.

Context {rule ymatch : Type}.
Variable rule_match : rule -> string -> list ymatch.
Variables rules_true rules_false : list rule.
Variable truth : string.

Lemma fold_truth (rows : list Row) (c : Counters) :
  let c' := fold_left (bump_row rule_match rules_true rules_false truth)
                      rows c in
  total_from_proxy c'
  = total_from_proxy c + Z.of_nat (List.length (filter (from_address truth) rows))
  /\ total_not_from_proxy c'
     = total_not_from_proxy c
       + Z.of_nat (List.length (filter (from_elsewhere truth) rows))
  /\ fail c' - fail_from_proxy c' - fail_not_from_proxy c'
     = fail c - fail_from_proxy c - fail_not_from_proxy c.
Proof.
  revert c. induction rows as [| row rows IH]; intro c.
  - cbn. lia.
  - cbn [fold_left]. destruct (IH (bump_row rule_match rules_true rules_false
                                            truth c row)) as (I1 & I2 & I3).
    cbn zeta. rewrite I1, I2, I3, !length_filter_cons.
    unfold bump_row, cell_of, from_address, from_elsewhere.
    destruct (payload row) as [h |]; [| cbn; repeat split; lia].
    destruct (positive rule_match rules_true rules_false h),
      (String.eqb (ip_text row) truth);
      cbn [cell_table negb]; unfold bump, inc_total, inc_total_from_proxy,
        inc_total_not_from_proxy, inc_fail, inc_fail_from_proxy,
        inc_fail_not_from_proxy;
      cbn [total_from_proxy total_not_from_proxy fail fail_from_proxy
           fail_not_from_proxy];
      repeat split; lia.
Qed.

End TruthFacts.

(** X17. The two ground-truth counters of a pass do not depend on the rules:
    [total_from_proxy] (TP + FN) is the number of records with a payload
    that come from the address of the identity, [total_not_from_proxy]
    (FP + TN) the number of those that come from another address.  The
    counter [fail], which the report does not print, is FP + FN. *)
Theorem ground_truth_counters {rule ymatch : Type}
    (rule_match : rule -> string -> list ymatch) (g : Globals)
    (ips proxies : list string) (i : nat) (truth name : string)
    (rules_true rules_false : list rule) (rows : list Row) :
  nth_error ips i = Some truth ->
  nth_error proxies i = Some name ->
  exists c,
    result_of
      (row_loop rule_match g ips proxies i rules_true rules_false rows counters0)
    = Done c
    /\ TP c + FN c = Z.of_nat (List.length (filter (from_address truth) rows))
    /\ FP c + TN c = Z.of_nat (List.length (filter (from_elsewhere truth) rows))
    /\ total_from_proxy c = TP c + FN c
    /\ total_not_from_proxy c = FP c + TN c
    /\ fail c = FP c + FN c.
Proof.
  intros Hip Hname.
  rewrite (row_loop_eq rule_match g ips proxies i truth name Hip Hname).
  eexists. split; [reflexivity |].
  destruct (fold_truth rule_match rules_true rules_false truth rows counters0)
    as (I1 & I2 & I3).
  cbn zeta in I1, I2, I3. cbn [counters0 total_from_proxy total_not_from_proxy
    fail fail_from_proxy fail_not_from_proxy] in I1, I2, I3.
  unfold TP, FP, TN, FN. repeat split; lia.
Qed.

(** ** One report per evaluated identity *)

Lemma totals_app (a b : list event) : totals (a ++ b) = totals a ++ totals b.
Proof. apply flat_map_app. Qed.

Lemma totals_load {rule : Type} (yara_compile : string -> compiled rule)
    (paths : list string) (acc : list rule) :
  totals (fst (load_loop yara_compile paths acc)) = [].
Proof.
  revert acc. induction paths as [| p paths IH]; intro acc; [reflexivity |].
  cbn [load_loop]. unfold print. rewrite !bind_done. cbn [fst snd].
  destruct (yara_compile p); [| reflexivity ..].
  rewrite !totals_app, IH. reflexivity.
Qed.

Lemma totals_row_events {rule ymatch : Type}
    (rule_match : rule -> string -> list ymatch) (g : Globals)
    (name truth : string) (rt rf : list rule) (rows : list Row) :
  totals (flat_map (row_events rule_match g name truth rt rf) rows) = [].
Proof.
  induction rows as [| row rows IH]; [reflexivity |].
  cbn [flat_map]. rewrite totals_app, IH, app_nil_r.
  unfold row_events. destruct (payload row) as [h |]; [| reflexivity].
  rewrite !totals_app.
  assert (S : forall rules : list rule, totals (scan_events rules h) = []).
  { intro rules. unfold scan_events. now induction rules. }
  rewrite !S. unfold list_line.
  destruct (verbose g), (cell_table _ _), (list_flag g) as [f |];
    try destruct (String.eqb f _); reflexivity.
Qed.

Section ReportFacts.

Context {rule ymatch : Type}.
Variable rnd : Q -> Q.
Variable yara_compile : string -> compiled rule.
Variable rule_match : rule -> string -> list ymatch.
Variable str_lower : string -> string.

Lemma pass_body_totals (g : Globals) (rows : list Row) (e : ProxyEntry) :
  snd (pass_body rnd yara_compile rule_match g rows e) = Done tt ->
  totals (fst (pass_body rnd yara_compile rule_match g rows e))
  = [Z.of_nat (List.length rows)].
Proof.
  unfold pass_body, load_yara_rules, print. rewrite bind_done. cbn [fst snd].
  pose proof (totals_load yara_compile (should_be_true (yara_ruleset e)) [])
    as T1.
  destruct (load_loop yara_compile (should_be_true (yara_ruleset e)) [])
    as [t1 [rt | c | x]]; [| discriminate ..].
  rewrite bind_done. cbn [fst snd] in *.
  pose proof (totals_load yara_compile
                (get_should_be_false (yara_ruleset e)) []) as T2.
  destruct (load_loop yara_compile (get_should_be_false (yara_ruleset e)) [])
    as [t2 [rf | c | x]]; [| discriminate ..].
  rewrite bind_done. cbn [fst snd] in *.
  rewrite (row_loop_eq rule_match g [ip e] [proxy e] 0 (ip e) (proxy e))
    by reflexivity.
  rewrite bind_done. cbn [fst snd].
  set (c := fold_left _ rows counters0).
  assert (Hc : total c = Z.of_nat (List.length rows)).
  { unfold c. rewrite fold_total. reflexivity. }
  destruct (Z.eq_dec (total c) 0) as [Hz | Hnz].
  - rewrite (report_zero rnd c Hz). discriminate.
  - rewrite (report_ok rnd c Hnz). intros _. cbn [fst].
    rewrite !totals_app, T1, T2, totals_row_events.
    cbn. now rewrite Hc.
Qed.

Lemma entries_loop_totals (g : Globals) (rows : list Row)
    (es : list ProxyEntry) :
  snd (entries_loop rnd yara_compile rule_match str_lower g rows es) = Done tt ->
  totals (fst (entries_loop rnd yara_compile rule_match str_lower g rows es))
  = map (fun _ => Z.of_nat (List.length rows))
        (filter (selected str_lower g) es).
Proof.
  induction es as [| e es IH]; [reflexivity |].
  cbn [entries_loop filter]. destruct (selected str_lower g e); [| exact IH].
  pose proof (pass_body_totals g rows e) as P.
  destruct (pass_body rnd yara_compile rule_match g rows e)
    as [t [[] | c | x]]; [| discriminate ..].
  rewrite bind_done. cbn [fst snd] in *. intro Hd.
  rewrite totals_app, (P eq_refl), (IH Hd). reflexivity.
Qed.

End ReportFacts.

Lemma marks_app (a b : list event) :
  report_marks (a ++ b) = report_marks a ++ report_marks b.
Proof. apply flat_map_app. Qed.

Lemma marks_load {rule : Type} (yara_compile : string -> compiled rule)
    (paths : list string) (acc : list rule) :
  report_marks (fst (load_loop yara_compile paths acc)) = [].
Proof.
  revert acc. induction paths as [| p paths IH]; intro acc; [reflexivity |].
  cbn [load_loop]. unfold print. rewrite !bind_done. cbn [fst snd].
  destruct (yara_compile p); [| reflexivity ..].
  rewrite !marks_app, IH. reflexivity.
Qed.

Lemma marks_row_events {rule ymatch : Type}
    (rule_match : rule -> string -> list ymatch) (g : Globals)
    (name truth : string) (rt rf : list rule) (rows : list Row) :
  report_marks (flat_map (row_events rule_match g name truth rt rf) rows) = [].
Proof.
  induction rows as [| row rows IH]; [reflexivity |].
  cbn [flat_map]. rewrite marks_app, IH, app_nil_r.
  unfold row_events. destruct (payload row) as [h |]; [| reflexivity].
  rewrite !marks_app.
  assert (S : forall rules : list rule,
             report_marks (scan_events rules h) = []).
  { intro rules. unfold scan_events. now induction rules. }
  rewrite !S. unfold list_line.
  destruct (verbose g), (cell_table _ _), (list_flag g) as [f |];
    try destruct (String.eqb f _); reflexivity.
Qed.

Section MarkFacts.

Context {rule ymatch : Type}.
Variable rnd : Q -> Q.
Variable yara_compile : string -> compiled rule.
Variable rule_match : rule -> string -> list ymatch.
Variable str_lower : string -> string.

Lemma pass_body_marks (g : Globals) (rows : list Row) (e : ProxyEntry) :
  snd (pass_body rnd yara_compile rule_match g rows e) = Done tt ->
  report_marks (fst (pass_body rnd yara_compile rule_match g rows e))
  = [inl (proxy e); inr (Z.of_nat (List.length rows))].
Proof.
  unfold pass_body, load_yara_rules, print. rewrite bind_done. cbn [fst snd].
  pose proof (marks_load yara_compile (should_be_true (yara_ruleset e)) [])
    as T1.
  destruct (load_loop yara_compile (should_be_true (yara_ruleset e)) [])
    as [t1 [rt | c | x]]; [| discriminate ..].
  rewrite bind_done. cbn [fst snd] in *.
  pose proof (marks_load yara_compile
                (get_should_be_false (yara_ruleset e)) []) as T2.
  destruct (load_loop yara_compile (get_should_be_false (yara_ruleset e)) [])
    as [t2 [rf | c | x]]; [| discriminate ..].
  rewrite bind_done. cbn [fst snd] in *.
  rewrite (row_loop_eq rule_match g [ip e] [proxy e] 0 (ip e) (proxy e))
    by reflexivity.
  rewrite bind_done. cbn [fst snd].
  set (c := fold_left _ rows counters0).
  assert (Hc : total c = Z.of_nat (List.length rows)).
  { unfold c. rewrite fold_total. reflexivity. }
  destruct (Z.eq_dec (total c) 0) as [Hz | Hnz].
  - rewrite (report_zero rnd c Hz). discriminate.
  - rewrite (report_ok rnd c Hnz). intros _. cbn [fst].
    change (Print (LParsingRuleset (proxy e)) :: ?l)
      with ([Print (LParsingRuleset (proxy e))] ++ l).
    rewrite !marks_app, T1, T2, marks_row_events.
    cbn. now rewrite Hc.
Qed.

Lemma entries_loop_marks (g : Globals) (rows : list Row)
    (es : list ProxyEntry) :
  snd (entries_loop rnd yara_compile rule_match str_lower g rows es) = Done tt ->
  report_marks
    (fst (entries_loop rnd yara_compile rule_match str_lower g rows es))
  = flat_map (fun e => [inl (proxy e); inr (Z.of_nat (List.length rows))])
             (filter (selected str_lower g) es).
Proof.
  induction es as [| e es IH]; [reflexivity |].
  cbn [entries_loop filter]. destruct (selected str_lower g e); [| exact IH].
  pose proof (pass_body_marks g rows e) as P.
  destruct (pass_body rnd yara_compile rule_match g rows e)
    as [t [[] | c | x]]; [| discriminate ..].
  rewrite bind_done. cbn [fst snd] in *. intro Hd.
  rewrite marks_app, (P eq_refl), (IH Hd). reflexivity.
Qed.

End MarkFacts.

(** X13. A run that ends normally has printed, for every identity that
    passes the proxy filter and for no other, its ruleset header followed
    by exactly one report, in configuration order: the headers and totals
    of the trace are, in order, the name of each such identity followed by
    the number of rows of the store.  Every identity is scored on all the
    rows. *)
Theorem one_report_per_identity {rule ymatch : Type} (rnd : Q -> Q)
    (yara_compile : string -> compiled rule)
    (rule_match : rule -> string -> list ymatch)
    (str_lower : string -> string)
    (load_proxies : string -> list ProxyEntry) (open_store : string -> Store)
    (g : Globals) (db_path config_file : string) (rows : list Row) :
  let run := scan_sqlite_database rnd yara_compile rule_match str_lower
               load_proxies open_store g db_path config_file in
  open_store db_path = StoreRows rows ->
  result_of run = Done tt ->
  report_marks (trace_of run)
  = flat_map (fun e => [inl (proxy e); inr (Z.of_nat (List.length rows))])
             (filter (selected str_lower g) (load_proxies config_file))
  /\ totals (trace_of run)
     = map (fun _ => Z.of_nat (List.length rows))
           (filter (selected str_lower g) (load_proxies config_file)).
Proof.
  intros run Hs. unfold run, result_of, trace_of.
  rewrite scan_entries, Hs. cbn [fetchall]. rewrite bind_ret_l.
  pose proof (entries_loop_totals rnd yara_compile rule_match str_lower g rows
                (load_proxies config_file)) as T.
  pose proof (entries_loop_marks rnd yara_compile rule_match str_lower g rows
                (load_proxies config_file)) as K.
  destruct (entries_loop _ _ _ _ _ _ _) as [t [[] | c | [| | x]]];
    cbn [except_sqlite fst snd] in *; try discriminate.
  intros _. split; [now apply K | now apply T].
Qed.

(** ** Extreme scores *)

Lemma Qpos_zero (q : Q) : (q == 0)%Q -> Qpos q = false.
Proof.
  intro H. unfold Qpos. apply negb_false_iff, Qle_bool_iff.
  rewrite H. apply Qle_refl.
Qed.

(** X19. Without a true positive all three metrics are zero, whatever FP and FN
    are: precision and recall have value 0 and F1 is the integer 0 of the
    zero-denominator case. *)
Theorem no_true_positive_scores_zero (rnd : Q -> Q) (fp fn : Z) :
  rounding rnd ->
  exists precision recall : num,
    precision_of rnd 0 fp = ret precision
    /\ recall_of rnd 0 fn = ret recall
    /\ f1_of rnd precision recall = ret (NInt 0)
    /\ (num_value precision == 0)%Q
    /\ (num_value recall == 0)%Q.
Proof.
  intro R.
  assert (Z0 : forall x, unit_num rnd (precision_q rnd 0 x)
                         /\ (to_float rnd (precision_q rnd 0 x) == 0)%Q).
  { intro x. unfold precision_q. destruct (0 <? 0 + x).
    - cbn [quotient to_float].
      assert (E : (rnd (inject_Z 0 / inject_Z x) == 0)%Q).
      { rewrite (rnd_proper rnd R _ 0); [apply (rnd_0 rnd R) |].
        unfold Qdiv. apply Qmult_0_l. }
      split; [| exact E]. unfold unit_num. cbn [to_float num_value].
      split; [rewrite E; split; [apply Qle_refl | discriminate] |].
      split; [apply (rnd_idem rnd R) | reflexivity].
    - split; [apply (unit_num_zero rnd R) | apply (rnd_0 rnd R)]. }
  exists (precision_q rnd 0 fp), (precision_q rnd 0 fn).
  split; [apply precision_of_eq |]. split; [apply recall_of_eq |].
  destruct (Z0 fp) as ((_ & _ & Vp) & Ep), (Z0 fn) as ((_ & _ & Vr) & Er).
  split; [| split; [now rewrite Vp | now rewrite Vr]].
  rewrite f1_of_eq. f_equal. f_equal. unfold f1_q.
  replace (num_gt0 (num_add rnd (precision_q rnd 0 fp) (precision_q rnd 0 fn)))
    with false; [reflexivity |].
  symmetry.
  destruct (precision_q rnd 0 fp) as [a | p], (precision_q rnd 0 fn) as [b | r];
    cbn [num_add num_gt0 to_float num_value] in *.
  - apply Z.ltb_ge. rewrite <- Vp in Ep. rewrite <- Vr in Er.
    unfold Qeq in Ep, Er. cbn [inject_Z Qnum Qden] in Ep, Er. lia.
  - apply Qpos_zero. rewrite (rnd_proper rnd R _ 0); [apply (rnd_0 rnd R) |].
    rewrite Ep, Er. reflexivity.
  - apply Qpos_zero. rewrite (rnd_proper rnd R _ 0); [apply (rnd_0 rnd R) |].
    rewrite Ep, Er. reflexivity.
  - apply Qpos_zero. rewrite (rnd_proper rnd R _ 0); [apply (rnd_0 rnd R) |].
    rewrite Ep, Er. reflexivity.
Qed.

(** X20. With at least one true positive, no false positive and no false
    negative, precision, recall and F1 all have value 1, for every
    rounding. *)
Theorem perfect_detection_scores_one (rnd : Q -> Q) (tp : Z) :
  rounding rnd ->
  0 < tp ->
  exists precision recall f1_score : num,
    precision_of rnd tp 0 = ret precision
    /\ recall_of rnd tp 0 = ret recall
    /\ f1_of rnd precision recall = ret f1_score
    /\ (num_value precision == 1)%Q
    /\ (num_value recall == 1)%Q
    /\ (num_value f1_score == 1)%Q.
Proof.
  intros R Htp.
  assert (Hq : precision_q rnd tp 0
               = NFloat (rnd (inject_Z tp / inject_Z (tp + 0))%Q)).
  { unfold precision_q. replace (0 <? tp + 0) with true; [reflexivity |].
    symmetry. apply Z.ltb_lt. lia. }
  set (P := rnd (inject_Z tp / inject_Z (tp + 0))%Q) in *.
  assert (HP : (P == 1)%Q).
  { unfold P. rewrite (rnd_proper rnd R _ 1); [apply (rnd_1 rnd R) |].
    rewrite Z.add_0_r. apply Qmult_inv_r.
    intro E. unfold Qeq in E. cbn [inject_Z Qnum Qden] in E. lia. }
  assert (E1 : (rnd (P * P)%Q == 1)%Q).
  { rewrite (rnd_proper rnd R _ 1); [apply (rnd_1 rnd R) |]. rewrite HP.
    reflexivity. }
  assert (E2 : (rnd (rnd (inject_Z 2) * rnd (P * P))%Q == 2)%Q).
  { rewrite (rnd_proper rnd R _ 2); [apply (rnd_2 rnd R) |].
    change (inject_Z 2) with 2%Q. rewrite (rnd_2 rnd R), E1. reflexivity. }
  assert (E3 : (rnd (P + P)%Q == 2)%Q).
  { rewrite (rnd_proper rnd R _ 2); [apply (rnd_2 rnd R) |]. rewrite HP.
    reflexivity. }
  exists (NFloat P), (NFloat P).
  exists (f1_q rnd (NFloat P) (NFloat P)).
  split; [rewrite precision_of_eq; now rewrite Hq |].
  split; [unfold recall_of; fold (precision_of rnd tp 0);
          rewrite precision_of_eq; now rewrite Hq |].
  split; [apply f1_of_eq |].
  split; [exact HP |]. split; [exact HP |].
  unfold f1_q. cbn [num_add num_mul to_float num_gt0].
  replace (Qpos (rnd (P + P)%Q)) with true.
  - cbn [quotient to_float num_value].
    rewrite (rnd_proper rnd R _ 1); [apply (rnd_1 rnd R) |].
    rewrite E2, E3. reflexivity.
  - symmetry. apply Qpos_true. rewrite E3. reflexivity.
Qed.

(** ** The positional arguments *)

(** X8. The second and third entries of [sys.argv] are always taken as the
    store path and the configuration path, also when they look like
    options; options are read from the fourth entry on, and the evaluation
    runs with the globals they set, after their "setting verbose" lines. *)
Theorem options_follow_the_paths {rule ymatch : Type} (rnd : Q -> Q)
    (yara_compile : string -> compiled rule)
    (rule_match : rule -> string -> list ymatch)
    (str_lower str_upper : string -> string)
    (load_proxies : string -> list ProxyEntry) (open_store : string -> Store)
    (prog db_path config_file : string) (args : list string) :
  exists g,
    result_of (args_loop str_upper args globals0) = Done g
    /\ main rnd yara_compile rule_match str_lower str_upper
            load_proxies open_store (prog :: db_path :: config_file :: args)
       = (args_loop str_upper args globals0 ;;;
          scan_sqlite_database rnd yara_compile rule_match str_lower
                               load_proxies open_store g db_path config_file).
Proof.
  destruct (args_loop_done str_upper args globals0) as (g & E & _).
  exists g. rewrite E. split; [reflexivity |].
  unfold main. cbn [List.length].
  replace (Z.of_nat (S (S (S (List.length args)))) <? 3) with false
    by (symmetry; apply Z.ltb_ge; lia).
  cbn [index nth_error skipn]. rewrite !bind_ret_l, E.
  now rewrite !bind_done.
Qed.

(** ** An identity without positive rules *)

Lemma no_positive_rule_cells {rule ymatch : Type}
    (rule_match : rule -> string -> list ymatch)
    (rules_false : list rule) (truth : string) (rows : list Row) :
  count_cell rule_match [] rules_false truth CellTP rows = 0
  /\ count_cell rule_match [] rules_false truth CellFP rows = 0.
Proof.
  unfold count_cell. induction rows as [| row rows (I1 & I2)]; [now split |].
  rewrite !length_filter_cons, I1, I2. unfold in_cell, cell_of.
  destruct (payload row) as [h |]; [| now split].
  unfold positive. cbn [matches_of flat_map truthy_list andb cell_table].
  now destruct (String.eqb (ip_text row) truth).
Qed.

(** X18. With an empty [should_be_true] list nothing is detected: TP and FP are
    0, every record with a payload from the address of the identity is a
    false negative, and every other record with a payload a true
    negative. *)
Theorem no_positive_rule_detects_nothing {rule ymatch : Type}
    (rule_match : rule -> string -> list ymatch) (g : Globals)
    (ips proxies : list string) (i : nat) (truth name : string)
    (rules_false : list rule) (rows : list Row) :
  nth_error ips i = Some truth ->
  nth_error proxies i = Some name ->
  exists c,
    result_of (row_loop rule_match g ips proxies i [] rules_false rows counters0)
    = Done c
    /\ TP c = 0 /\ FP c = 0
    /\ FN c = Z.of_nat (List.length (filter (from_address truth) rows))
    /\ TN c = Z.of_nat (List.length (filter (from_elsewhere truth) rows)).
Proof.
  intros Hip Hname.
  rewrite (row_loop_eq rule_match g ips proxies i truth name Hip Hname).
  eexists. split; [reflexivity |].
  destruct (fold_truth rule_match [] rules_false truth rows counters0)
    as (I1 & I2 & _).
  cbn zeta in I1, I2.
  pose proof (fun k => fold_cell rule_match [] rules_false truth k
                                 rows counters0) as F.
  pose proof (F CellTP) as FTP. pose proof (F CellFP) as FFP.
  cbn [cell_value] in FTP, FFP.
  pose proof (no_positive_rule_cells rule_match rules_false truth rows) as Z0.
  destruct Z0 as (ZTP & ZFP). rewrite ZTP in FTP. rewrite ZFP in FFP.
  change (TP counters0) with 0 in FTP. change (FP counters0) with 0 in FFP.
  cbn [counters0 total_from_proxy total_not_from_proxy] in I1, I2.
  unfold TP, FP, TN, FN in *. repeat split; lia.
Qed.

(** ** The further properties at concrete inputs *)

Lemma load_yara_rules_in_order_witness :
  (forall p, In p ["via-acme"; "direct"] ->
             failed (Demo.yara_compile p) = false)
  /\ exists rules,
      load_yara_rules Demo.yara_compile ["via-acme"; "direct"]
      = (flat_map loading ["via-acme"; "direct"], Done rules)
      /\ Forall2 (fun p r => Demo.yara_compile p = Compiled r)
                 ["via-acme"; "direct"] rules
      /\ List.length rules = 2%nat.
Proof.
  assert (H : forall p, In p ["via-acme"; "direct"] ->
                        failed (Demo.yara_compile p) = false).
  { intros p [<- | [<- | []]]; reflexivity. }
  split; [exact H |].
  exact (load_yara_rules_in_order Demo.yara_compile ["via-acme"; "direct"] H).
Defined.

Lemma load_yara_rules_first_failure_witness :
  (forall q, In q ["via-acme"] -> failed (Demo.yara_compile q) = false)
  /\ failed (Demo.yara_compile "rules.bad") = true
  /\ load_yara_rules Demo.yara_compile (["via-acme"] ++ "rules.bad" :: ["direct"])
     = load_yara_rules Demo.yara_compile (["via-acme"] ++ ["rules.bad"]).
Proof.
  assert (H : forall q, In q ["via-acme"] ->
                        failed (Demo.yara_compile q) = false).
  { intros q [<- | []]. reflexivity. }
  split; [exact H |]. split; [reflexivity |].
  exact (proj2 (load_yara_rules_first_failure Demo.yara_compile
                  ["via-acme"] "rules.bad" ["direct"] H eq_refl)).
Defined.

Lemma store_error_exits_witness :
  Demo.open_store "missing.db" = StoreError "no such table: ssl_logs"
  /\ Demo.scan_sqlite_database globals0 "missing.db" "two.yaml"
     = ([Print (LSQLiteError "no such table: ssl_logs")], Exit 1).
Proof.
  split; [reflexivity |].
  exact (store_error_exits Demo.rnd Demo.yara_compile Demo.rule_match
           Demo.str_lower Demo.load_proxies Demo.open_store globals0
           "missing.db" "two.yaml" "no such table: ssl_logs" eq_refl).
Defined.

Lemma empty_filter_selects_all_witness :
  specific_proxy (mkGlobals false None (Some "")) = Some ""
  /\ Demo.scan_sqlite_database (mkGlobals false None (Some ""))
                               "all.db" "two.yaml"
     = Demo.scan_sqlite_database (mkGlobals false None None)
                                 "all.db" "two.yaml".
Proof.
  split; [reflexivity |].
  exact (empty_filter_selects_all Demo.rnd Demo.yara_compile Demo.rule_match
           Demo.str_lower Demo.load_proxies Demo.open_store
           (mkGlobals false None (Some "")) "all.db" "two.yaml" eq_refl).
Defined.

Lemma rows_prevent_division_by_zero_witness :
  Demo.open_store "all.db" = StoreRows Demo.sample_rows
  /\ Demo.sample_rows <> []
  /\ result_of (Demo.scan_sqlite_database globals0 "all.db" "broken.yaml")
     <> Raise ZeroDivisionError.
Proof.
  assert (H : Demo.sample_rows <> []) by discriminate.
  split; [reflexivity |]. split; [exact H |].
  exact (rows_prevent_division_by_zero Demo.rnd Demo.yara_compile
           Demo.rule_match Demo.str_lower Demo.load_proxies Demo.open_store
           globals0 "all.db" "broken.yaml" Demo.sample_rows eq_refl H).
Defined.

Lemma match_calls_of_a_pass_witness :
  nth_error ["1.2.3.4"] 0 = Some "1.2.3.4"
  /\ nth_error ["Acme"] 0 = Some "Acme"
  /\ count_events match_call
       (trace_of (Demo.row_loop globals0 Demo.acme ["via-acme"] ["direct"]
                                Demo.sample_rows))
     = 8.
Proof.
  split; [reflexivity |]. split; [reflexivity |].
  exact (match_calls_of_a_pass Demo.rule_match globals0
           ["1.2.3.4"] ["Acme"] 0 "1.2.3.4" "Acme" ["via-acme"] ["direct"]
           Demo.sample_rows eq_refl eq_refl).
Defined.

Lemma verbose_lines_of_a_pass_witness :
  nth_error ["1.2.3.4"] 0 = Some "1.2.3.4"
  /\ nth_error ["Acme"] 0 = Some "Acme"
  /\ exists t c,
      Demo.row_loop (mkGlobals true None None) Demo.acme
                    ["via-acme"] ["direct"] Demo.sample_rows
      = (t, Done c)
      /\ count_events verbose_event t = TP c + FP c + FN c.
Proof.
  split; [reflexivity |]. split; [reflexivity |].
  destruct (verbose_lines_of_a_pass Demo.rule_match (mkGlobals true None None)
              ["1.2.3.4"] ["Acme"] 0 "1.2.3.4" "Acme" ["via-acme"] ["direct"]
              Demo.sample_rows eq_refl eq_refl) as (t & c & E & Hv & _).
  exists t, c. split; [exact E | exact (Hv eq_refl)].
Defined.

Lemma list_lines_of_a_pass_witness :
  nth_error ["1.2.3.4"] 0 = Some "1.2.3.4"
  /\ nth_error ["Acme"] 0 = Some "Acme"
  /\ exists t c,
      Demo.row_loop (mkGlobals false (Some "FN") None) Demo.acme
                    ["via-acme"] ["direct"] Demo.sample_rows
      = (t, Done c)
      /\ count_events list_event t = FN c.
Proof.
  split; [reflexivity |]. split; [reflexivity |].
  destruct (list_lines_of_a_pass Demo.rule_match
              (mkGlobals false (Some "FN") None)
              ["1.2.3.4"] ["Acme"] 0 "1.2.3.4" "Acme" ["via-acme"] ["direct"]
              Demo.sample_rows eq_refl eq_refl)
    as (t & c & E & _ & _ & _ & Hf & _).
  exists t, c. split; [exact E | exact (Hf eq_refl)].
Defined.

Lemma ground_truth_counters_witness :
  nth_error ["1.2.3.4"] 0 = Some "1.2.3.4"
  /\ nth_error ["Acme"] 0 = Some "Acme"
  /\ exists c,
      result_of (Demo.row_loop globals0 Demo.acme ["via-acme"] ["direct"]
                               Demo.sample_rows) = Done c
      /\ TP c + FN c = 2 /\ FP c + TN c = 2.
Proof.
  split; [reflexivity |]. split; [reflexivity |].
  destruct (ground_truth_counters Demo.rule_match globals0
              ["1.2.3.4"] ["Acme"] 0 "1.2.3.4" "Acme" ["via-acme"] ["direct"]
              Demo.sample_rows eq_refl eq_refl) as (c & E & H1 & H2 & _).
  exists c. split; [exact E |]. split; [exact H1 | exact H2].
Defined.

Lemma one_report_per_identity_witness :
  Demo.open_store "all.db" = StoreRows Demo.sample_rows
  /\ result_of (Demo.scan_sqlite_database globals0 "all.db" "two.yaml")
     = Done tt
  /\ report_marks
       (trace_of (Demo.scan_sqlite_database globals0 "all.db" "two.yaml"))
     = [inl "Acme"; inr 5; inl "Bolt"; inr 5].
Proof.
  split; [reflexivity |]. split; [reflexivity |].
  exact (proj1 (one_report_per_identity Demo.rnd Demo.yara_compile
                  Demo.rule_match Demo.str_lower Demo.load_proxies
                  Demo.open_store globals0 "all.db" "two.yaml"
                  Demo.sample_rows eq_refl eq_refl)).
Defined.

Lemma no_true_positive_scores_zero_witness :
  rounding Demo.rnd
  /\ exists precision recall : num,
      precision_of Demo.rnd 0 4 = ret precision
      /\ recall_of Demo.rnd 0 0 = ret recall
      /\ f1_of Demo.rnd precision recall = ret (NInt 0)
      /\ (num_value precision == 0)%Q
      /\ (num_value recall == 0)%Q.
Proof.
  split; [exact Qred_rounding |].
  exact (no_true_positive_scores_zero Demo.rnd 4 0 Qred_rounding).
Defined.

Lemma perfect_detection_scores_one_witness :
  rounding Demo.rnd
  /\ 0 < 3
  /\ exists precision recall f1_score : num,
      precision_of Demo.rnd 3 0 = ret precision
      /\ recall_of Demo.rnd 3 0 = ret recall
      /\ f1_of Demo.rnd precision recall = ret f1_score
      /\ (num_value precision == 1)%Q
      /\ (num_value recall == 1)%Q
      /\ (num_value f1_score == 1)%Q.
Proof.
  split; [exact Qred_rounding |]. split; [reflexivity |].
  exact (perfect_detection_scores_one Demo.rnd 3 Qred_rounding eq_refl).
Defined.

Lemma no_positive_rule_detects_nothing_witness :
  nth_error ["1.2.3.4"] 0 = Some "1.2.3.4"
  /\ nth_error ["Acme"] 0 = Some "Acme"
  /\ exists c,
      result_of (Demo.row_loop globals0 Demo.acme [] ["direct"]
                               Demo.sample_rows) = Done c
      /\ TP c = 0 /\ FP c = 0 /\ FN c = 2 /\ TN c = 2.
Proof.
  split; [reflexivity |]. split; [reflexivity |].
  exact (no_positive_rule_detects_nothing Demo.rule_match globals0
           ["1.2.3.4"] ["Acme"] 0 "1.2.3.4" "Acme" ["direct"]
           Demo.sample_rows eq_refl eq_refl).
Defined.

(** * The run after a failed compile *)

Lemma paths_first_failure {rule : Type} (yara_compile : string -> compiled rule)
    (paths : list string) :
  (forall q, In q paths -> failed (yara_compile q) = false)
  \/ exists ok q later,
      paths = ok ++ q :: later
      /\ (forall x, In x ok -> failed (yara_compile x) = false)
      /\ failed (yara_compile q) = true.
Proof.
  induction paths as [| a paths IH]; [left; intros q [] |].
  destruct (failed (yara_compile a)) eqn:Ea.
  - right. exists [], a, paths. split; [reflexivity |].
    split; [intros x [] | exact Ea].
  - destruct IH as [Hok | (ok & q & later & -> & Hok & Hq)].
    + left. intros q [<- | Hq]; [exact Ea | now apply Hok].
    + right. exists (a :: ok), q, later. split; [reflexivity |].
      split; [| exact Hq]. intros x [<- | Hx]; [exact Ea | now apply Hok].
Qed.

Lemma load_loop_fails_at {rule : Type} (yara_compile : string -> compiled rule)
    (ok : list string) (q : string) (later : list string) (acc : list rule) :
  (forall x, In x ok -> failed (yara_compile x) = false) ->
  failed (yara_compile q) = true ->
  load_loop yara_compile (ok ++ q :: later) acc
  = (flat_map loading ok ++ Print (LLoading q) :: diagnostic yara_compile q,
     Exit 1).
Proof.
  intros Hok Hq. revert acc. induction ok as [| a ok IH]; intro acc.
  - cbn [app load_loop flat_map]. unfold print. rewrite !bind_done.
    cbn [fst snd app]. unfold diagnostic.
    destruct (yara_compile q) as [r | e | e]; [discriminate | |]; reflexivity.
  - cbn [app load_loop flat_map]. unfold print. rewrite !bind_done.
    cbn [fst snd app loading].
    pose proof (Hok a (or_introl eq_refl)) as Ha.
    destruct (yara_compile a) as [r | e | e]; try discriminate.
    rewrite IH; [reflexivity |]. intros x Hx. apply Hok. now right.
Qed.

Lemma in_loading (paths : list string) (x : string) :
  In (YaraCompile x) (flat_map loading paths) -> In x paths.
Proof.
  intro H. apply in_flat_map in H. destruct H as (q & Hq & [H | [H | []]]).
  - discriminate.
  - now injection H as <-.
Qed.

Section FailureFacts.

Context {rule ymatch : Type}.
Variable rnd : Q -> Q.
Variable yara_compile : string -> compiled rule.
Variable rule_match : rule -> string -> list ymatch.
Variable str_lower : string -> string.

(** The rule files of an identity, in the order they are loaded. *)
Local Abbreviation files e :=
  (should_be_true (yara_ruleset e) ++ get_should_be_false (yara_ruleset e)).

(** The pass of an identity either compiles all its files, or stops at the
    first that fails, after its header and the loading lines alone. *)
Lemma pass_body_cases (g : Globals) (rows : list Row) (e : ProxyEntry) :
  clean yara_compile (fst (pass_body rnd yara_compile rule_match g rows e))
  \/ exists ok q later,
      files e = ok ++ q :: later
      /\ (forall x, In x ok -> failed (yara_compile x) = false)
      /\ failed (yara_compile q) = true
      /\ pass_body rnd yara_compile rule_match g rows e
         = (Print (LParsingRuleset (proxy e))
            :: flat_map loading ok
            ++ Print (LLoading q) :: diagnostic yara_compile q,
            Exit 1).
Proof.
  unfold pass_body, load_yara_rules, print.
  destruct (paths_first_failure yara_compile (should_be_true (yara_ruleset e)))
    as [Hok1 | (ok & q & later & E1 & Hok & Hq)].
  - destruct (load_loop_ok rule yara_compile _ [] Hok1) as (rt & L1 & _).
    rewrite bind_done, L1, bind_done. cbn [fst snd app].
    destruct (paths_first_failure yara_compile
                (get_should_be_false (yara_ruleset e)))
      as [Hok2 | (ok & q & later & E2 & Hok & Hq)].
    + left. destruct (load_loop_ok rule yara_compile _ [] Hok2) as (rf & L2 & _).
      rewrite L2, bind_done. cbn [fst snd].
      rewrite (row_loop_eq rule_match g [ip e] [proxy e] 0 (ip e) (proxy e))
        by reflexivity.
      rewrite bind_done. cbn [fst snd].
      intros x Hx. destruct Hx as [Hx | Hx]; [discriminate |].
      repeat (apply in_app_or in Hx; destruct Hx as [Hx | Hx]).
      * apply Hok1. now apply in_loading.
      * apply Hok2. now apply in_loading.
      * apply in_flat_map in Hx. destruct Hx as (row & _ & Hx).
        now apply row_events_no_compile in Hx.
      * now apply (report_clean rnd yara_compile) in Hx.
    + right. exists (should_be_true (yara_ruleset e) ++ ok), q, later.
      split; [now rewrite E2, <- app_assoc |].
      split; [| split; [exact Hq |]].
      * intros x Hx. apply in_app_or in Hx. destruct Hx; auto.
      * rewrite E2, (load_loop_fails_at yara_compile ok q later [] Hok Hq).
        cbn [bind fst snd]. now rewrite flat_map_app, <- app_assoc.
  - right. exists ok, q, (later ++ get_should_be_false (yara_ruleset e)).
    split; [now rewrite E1, <- app_assoc |].
    split; [exact Hok |]. split; [exact Hq |].
    rewrite bind_done, E1.
    rewrite (load_loop_fails_at yara_compile ok q later [] Hok Hq).
    reflexivity.
Qed.

(** A failed compile call in the trace of the loop over the identities
    belongs to the first identity with a file that does not compile: the
    identities before it were passed in full, and of this one only the
    header and the loading lines were printed. *)
Lemma entries_loop_failure (g : Globals) (rows : list Row)
    (es : list ProxyEntry) (p : string) :
  In (YaraCompile p)
     (fst (entries_loop rnd yara_compile rule_match str_lower g rows es)) ->
  failed (yara_compile p) = true ->
  exists before e after ok later,
    es = before ++ e :: after
    /\ selected str_lower g e = true
    /\ files e = ok ++ p :: later
    /\ (forall x, In x ok -> failed (yara_compile x) = false)
    /\ snd (entries_loop rnd yara_compile rule_match str_lower g rows before)
       = Done tt
    /\ entries_loop rnd yara_compile rule_match str_lower g rows es
       = (fst (entries_loop rnd yara_compile rule_match str_lower g rows before)
          ++ Print (LParsingRuleset (proxy e))
             :: flat_map loading ok
             ++ Print (LLoading p) :: diagnostic yara_compile p,
          Exit 1).
Proof.
  intros Hin Hp. induction es as [| e es IH]; [destruct Hin |].
  cbn [entries_loop] in Hin |- *.
  destruct (selected str_lower g e) eqn:Hsel.
  - destruct (pass_body_cases g rows e)
      as [Hc | (ok & q & later & Ef & Hok & Hq & Eb)].
    + destruct (pass_body rnd yara_compile rule_match g rows e)
        as [t [[] | c | x]] eqn:Eb; cbn [fst] in Hc.
      * rewrite bind_done in Hin |- *. cbn [fst] in Hin.
        apply in_app_or in Hin. destruct Hin as [Hin | Hin];
          [apply Hc in Hin; congruence |].
        destruct (IH Hin)
          as (before & e' & after & ok & later & -> & Hs & Ef & Hok & Hd & El).
        exists (e :: before), e', after, ok, later.
        split; [reflexivity |]. split; [exact Hs |]. split; [exact Ef |].
        split; [exact Hok |].
        cbn [entries_loop]. rewrite Hsel, Eb, !bind_done. cbn [fst snd].
        split; [exact Hd |]. rewrite El. cbn [fst snd].
        now rewrite <- app_assoc.
      * cbn [bind fst] in Hin. apply Hc in Hin. congruence.
      * cbn [bind fst] in Hin. apply Hc in Hin. congruence.
    + rewrite Eb in Hin |- *. cbn [bind fst] in Hin |- *.
      assert (q = p) as ->.
      { destruct Hin as [Hin | Hin]; [discriminate |].
        apply in_app_or in Hin. destruct Hin as [Hin | Hin].
        - apply in_loading, Hok in Hin. congruence.
        - destruct Hin as [Hin | Hin]; [discriminate |].
          unfold diagnostic in Hin.
          destruct (yara_compile q); cbn in Hin; [destruct Hin | |];
            destruct Hin as [H | [H | []]]; congruence. }
      exists [], e, es, ok, later.
      split; [reflexivity |]. split; [exact Hsel |]. split; [exact Ef |].
      split; [exact Hok |]. split; reflexivity.
  - destruct (IH Hin)
      as (before & e' & after & ok & later & -> & Hs & Ef & Hok & Hd & El).
    exists (e :: before), e', after, ok, later.
    split; [reflexivity |]. split; [exact Hs |]. split; [exact Ef |].
    split; [exact Hok |]. cbn [entries_loop]. rewrite Hsel.
    split; [exact Hd | exact El].
Qed.

End FailureFacts.

(** C8. A rule file whose compilation fails ends the whole run: the list
    of files being loaded is abandoned with exit status 1, and a run whose
    trace contains a failed compile call ends right after the diagnostic of
    that call with exit status 1.  Every compile call before it succeeded,
    nothing follows the diagnostic, and the diagnostic of a syntax error
    differs from the diagnostic of another compile error.  The whole trace
    is known: the lines of the options, then the passes of the identities
    before the failing one, each complete and ended normally, then of the
    failing identity its header and the loading lines of its files up to
    the failing one, then the diagnostic.  So the failing identity has no
    record scanned and no report, and the identities after it have
    nothing. *)
Theorem compile_failure_aborts_run {rule ymatch : Type} (rnd : Q -> Q)
    (yara_compile : string -> compiled rule)
    (rule_match : rule -> string -> list ymatch)
    (str_lower str_upper : string -> string)
    (load_proxies : string -> list ProxyEntry) (open_store : string -> Store)
    (argv : list string) (p : string) :
  let run := main rnd yara_compile rule_match str_lower str_upper
                  load_proxies open_store argv in
  In (YaraCompile p) (trace_of run) ->
  failed (yara_compile p) = true ->
  result_of run = Exit 1
  /\ (exists t,
        clean yara_compile t
        /\ ((exists e, yara_compile p = SyntaxErr e
                       /\ trace_of run
                          = t ++ [YaraCompile p; Print (LYaraSyntaxError e)])
            \/ (exists e, yara_compile p = OtherErr e
                          /\ trace_of run
                             = t ++ [YaraCompile p; Print (LYaraError e)])))
  /\ (forall paths, In p paths ->
        result_of (load_yara_rules yara_compile paths) = Exit 1)
  /\ (exists prog db_path config_file args g rows before e after ok later,
        argv = prog :: db_path :: config_file :: args
        /\ result_of (args_loop str_upper args globals0) = Done g
        /\ open_store db_path = StoreRows rows
        /\ load_proxies config_file = before ++ e :: after
        /\ selected str_lower g e = true
        /\ should_be_true (yara_ruleset e)
           ++ get_should_be_false (yara_ruleset e)
           = ok ++ p :: later
        /\ (forall q, In q ok -> failed (yara_compile q) = false)
        /\ result_of
             (ruleset_loop rnd yara_compile rule_match str_lower g
                           (map ip before) (map proxy before) rows 0
                           (map yara_ruleset before))
           = Done tt
        /\ trace_of run
           = trace_of (args_loop str_upper args globals0)
             ++ trace_of
                  (ruleset_loop rnd yara_compile rule_match str_lower g
                                (map ip before) (map proxy before) rows 0
                                (map yara_ruleset before))
             ++ Print (LParsingRuleset (proxy e))
                :: flat_map loading ok
                ++ Print (LLoading p) :: diagnostic yara_compile p).
Proof.
  intros run Hin Hf.
  destruct (stops_at yara_compile run p
              (main_stops rnd yara_compile rule_match str_lower str_upper
                          load_proxies open_store argv) Hin Hf)
    as (Hr & t & Hc & Ht).
  split; [exact Hr |]. split; [| split].
  - exists t. split; [exact Hc |]. unfold trace_of. rewrite Ht.
    unfold diagnostic. destruct (yara_compile p) as [r | e | e];
      [discriminate | left | right]; exists e; now split.
  - intros paths Hp. exact (load_fails rule yara_compile paths [] p Hp Hf).
  - clear Hr t Hc Ht. unfold run, trace_of, result_of in *. clear run.
    destruct argv as [| prog [| db [| cfg args]]];
      try (destruct Hin as [Hin | []]; discriminate).
    unfold main in *. cbn [List.length] in *.
    replace (Z.of_nat (S (S (S (List.length args)))) <? 3) with false in *
      by (symmetry; apply Z.ltb_ge; lia).
    cbn [index nth_error skipn] in *. rewrite !bind_ret_l in *.
    destruct (args_loop_done str_upper args globals0) as (g & Eg & _).
    rewrite Eg in *. rewrite bind_done in *. cbn [fst snd] in *.
    apply in_app_or in Hin. destruct Hin as [Hin | Hin].
    { apply in_map_iff in Hin. destruct Hin as (? & ? & _). discriminate. }
    rewrite scan_entries in *.
    destruct (open_store db) as [rows | err] eqn:Es;
      [| destruct Hin as [Hin | []]; discriminate].
    cbn [fetchall] in *. rewrite bind_ret_l in *.
    assert (Hin' : In (YaraCompile p)
                      (fst (entries_loop rnd yara_compile rule_match str_lower
                              g rows (load_proxies cfg)))).
    { destruct (entries_loop rnd yara_compile rule_match str_lower g rows
                  (load_proxies cfg)) as [t [a | c | [| | x]]];
        cbn [except_sqlite fst] in Hin |- *; try exact Hin.
      apply in_app_or in Hin. destruct Hin as [Hin | [Hin | []]];
        [exact Hin | discriminate]. }
    destruct (entries_loop_failure rnd yara_compile rule_match str_lower
                g rows (load_proxies cfg) p Hin' Hf)
      as (before & e & after & ok & later & Ecfg & Hs & Efiles & Hok & Hd & El).
    exists prog, db, cfg, args, g, rows, before, e, after, ok, later.
    pose proof (ruleset_loop_entries rnd yara_compile rule_match str_lower
                  g rows [] before) as RL.
    cbn [app List.length] in RL. rewrite RL, Eg. cbn [fst snd].
    split; [reflexivity |]. split; [reflexivity |]. split; [exact Es |].
    split; [exact Ecfg |]. split; [exact Hs |]. split; [exact Efiles |].
    split; [exact Hok |]. split; [exact Hd |].
    rewrite El. reflexivity.
Qed.

Lemma compile_failure_aborts_run_witness :
  In (YaraCompile "rules.bad")
     (trace_of (Demo.main ["prog"; "all.db"; "broken.yaml"]))
  /\ failed (Demo.yara_compile "rules.bad") = true
  /\ result_of (Demo.main ["prog"; "all.db"; "broken.yaml"]) = Exit 1
  /\ trace_of (Demo.main ["prog"; "all.db"; "broken.yaml"])
     = trace_of
         (ruleset_loop Demo.rnd Demo.yara_compile Demo.rule_match
                       Demo.str_lower globals0 ["1.2.3.4"] ["Acme"]
                       Demo.sample_rows 0 [yara_ruleset Demo.acme])
       ++ [Print (LParsingRuleset "Broken"); Print (LLoading "rules.bad");
           YaraCompile "rules.bad"; Print (LYaraSyntaxError "syntax error")].
Proof.
  assert (Hin : In (YaraCompile "rules.bad")
                   (trace_of (Demo.main ["prog"; "all.db"; "broken.yaml"]))).
  { vm_compute. repeat (first [left; reflexivity | right]). }
  split; [exact Hin |]. split; [reflexivity |].
  destruct (compile_failure_aborts_run Demo.rnd Demo.yara_compile
              Demo.rule_match Demo.str_lower Demo.str_upper Demo.load_proxies
              Demo.open_store ["prog"; "all.db"; "broken.yaml"]
              "rules.bad" Hin eq_refl)
    as (Hr & _ & _ & prog & db & cfg & args & g & rows & before & e & after
        & ok & later & Eargv & Eg & Es & Ecfg & _ & Efiles & _ & _ & Et).
  split; [exact Hr |].
  injection Eargv as <- <- <- <-.
  injection Eg as <-. injection Es as <-.
  change (Demo.load_proxies "broken.yaml")
    with [Demo.acme; Demo.broken; Demo.bolt] in Ecfg.
  destruct before as [| b1 [| b2 [| b3 before]]]; cbn [app] in Ecfg.
  - injection Ecfg as <- _. destruct ok as [| ? [| ? [| ? ok]]]; discriminate.
  - injection Ecfg as <- <- _.
    destruct ok as [| ? ok]; [| destruct ok; discriminate].
    unfold Demo.main. rewrite Et. reflexivity.
  - injection Ecfg as _ _ <- _. destruct ok as [| ? [| ? ok]]; discriminate.
  - destruct before; discriminate.
Defined.
